(** * GPS tracker firmware (src/tracking.cpp): shallow embedding

    The firmware is single-threaded C++ for an ESP8266.  Its globals, the two
    software serial ports, the millisecond clock and everything it emits are
    gathered in explicit state records that every function threads through.

    Platform facts used by the model: [int], [unsigned int] and
    [unsigned long] are 32 bits wide on the ESP8266, [double] is IEEE-754
    binary64 (Rocq's primitive floats), [char] is one byte. *)

From Stdlib Require Import ZArith Lia Ascii String Floats.
From Stdlib Require DecimalString.
From stdpp Require Import base list strings.

Local Open Scope Z_scope.

(** ** Outcomes of modelled code

    [Fault] is a write outside an array (undefined behaviour in C++);
    [Spin] is a loop that did not finish within the iterations granted. *)

Inductive outcome (A : Type) : Type :=
| Done (a : A)
| Fault
| Spin.

Arguments Done {A} a.
Arguments Fault {A}.
Arguments Spin {A}.

Global Instance outcome_bind : MBind outcome := fun A B k m =>
  match m with
  | Done a => k a
  | Fault => Fault
  | Spin => Spin
  end.

(** ** Constants and globals *)

(** [#define MESSAGE_BUFFER_SIZE 4097] *)
Definition MESSAGE_BUFFER_SIZE : Z := 4097.

Definition NUL : ascii := Ascii.zero.
Definition LF : ascii := ascii_of_N 10.
Definition DQ : ascii := ascii_of_N 34.

(** Line feed and double quote, as one-character strings. *)
Definition nl : string := String LF EmptyString.
Definition dq : string := String DQ EmptyString.

(** The two [SoftwareSerial] objects a [SoftwareSerial *] can point to. *)
Inductive PortId : Type := GSM | GPS.

Inductive WiFiMode_t : Type := WIFI_OFF | WIFI_STA | WIFI_AP | WIFI_AP_STA.

(** Everything the firmware emits, in program order. *)
Inductive Event : Type :=
| SerialPrint (s : string)
| SerialPrintln (s : string)
| SerialPrintDouble (x : float) (digits : Z)
| SerialPrintlnDouble (x : float) (digits : Z)
| SerialWrite (c : ascii)
| PortPrintln (id : PortId) (s : string)
| ServerSend (code : Z) (content_type body : string)
| WiFiDisconnect
| WiFiMode (m : WiFiMode_t)
| EspRestart.

(** A software serial port: [rx] holds the bytes received and not yet read,
    [wire] the bytes still to come, each with its arrival time in ms. *)
Record SoftwareSerial : Type := {
  rx : list ascii;
  wire : list (Z * ascii)
}.

Record Device : Type := {
  now : Z;
  Serial_rx : list ascii;
  GSM_Serial : SoftwareSerial;
  GPS_Serial : SoftwareSerial;
  msgStream : list ascii;
  trace : list Event
}.

(** ** Serial ports and the clock *)

Definition available (p : SoftwareSerial) : Z := Z.of_nat (length (rx p)).

(** [SoftwareSerial::read]: the next byte, or -1 when nothing is buffered. *)
Definition ss_read (p : SoftwareSerial) : Z * SoftwareSerial :=
  match rx p with
  | [] => (-1, p)
  | c :: r => (Z.of_N (N_of_ascii c), {| rx := r; wire := wire p |})
  end.

(** Conversion of an [int] to [unsigned char]. *)
Definition to_uchar (v : Z) : ascii := ascii_of_N (Z.to_N (v mod 256)).

Definition due (t : Z) (e : Z * ascii) : bool := fst e <=? t.

Definition deliver (t : Z) (p : SoftwareSerial) : SoftwareSerial :=
  {| rx := rx p ++ List.map snd (List.filter (due t) (wire p));
     wire := List.filter (fun e => negb (due t e)) (wire p) |}.

Definition port (id : PortId) (d : Device) : SoftwareSerial :=
  match id with
  | GSM => GSM_Serial d
  | GPS => GPS_Serial d
  end.

Definition set_port (id : PortId) (p : SoftwareSerial) (d : Device) : Device :=
  match id with
  | GSM => {| now := now d; Serial_rx := Serial_rx d; GSM_Serial := p;
              GPS_Serial := GPS_Serial d; msgStream := msgStream d; trace := trace d |}
  | GPS => {| now := now d; Serial_rx := Serial_rx d; GSM_Serial := GSM_Serial d;
              GPS_Serial := p; msgStream := msgStream d; trace := trace d |}
  end.

Definition set_msgStream (b : list ascii) (d : Device) : Device :=
  {| now := now d; Serial_rx := Serial_rx d; GSM_Serial := GSM_Serial d;
     GPS_Serial := GPS_Serial d; msgStream := b; trace := trace d |}.

Definition set_Serial_rx (r : list ascii) (d : Device) : Device :=
  {| now := now d; Serial_rx := r; GSM_Serial := GSM_Serial d;
     GPS_Serial := GPS_Serial d; msgStream := msgStream d; trace := trace d |}.

Definition emit (e : Event) (d : Device) : Device :=
  {| now := now d; Serial_rx := Serial_rx d; GSM_Serial := GSM_Serial d;
     GPS_Serial := GPS_Serial d; msgStream := msgStream d; trace := trace d ++ [e] |}.

(** Time passing: the clock advances and the bytes that have arrived by
    then move from the wire into the receive buffers. *)
Definition elapse (ms : Z) (d : Device) : Device :=
  let t := now d + ms in
  {| now := t; Serial_rx := Serial_rx d;
     GSM_Serial := deliver t (GSM_Serial d);
     GPS_Serial := deliver t (GPS_Serial d);
     msgStream := msgStream d; trace := trace d |}.

(** [delay(ms)] *)
Definition delay (ms : Z) (d : Device) : Device := elapse ms d.

(** [millis()]: a 32-bit counter. *)
Definition millis (d : Device) : Z := now d mod 2 ^ 32.

(** ** Arrays of [char] *)

(** [buffer[i] = c] *)
Definition store (buffer : list ascii) (i : Z) (c : ascii) : outcome (list ascii) :=
  if (0 <=? i) && (i <? Z.of_nat (length buffer))
  then Done (<[Z.to_nat i := c]> buffer)
  else Fault.

(** [memset(buffer, c, n)] *)
Definition memset (buffer : list ascii) (c : ascii) (n : Z) : outcome (list ascii) :=
  if n <=? Z.of_nat (length buffer)
  then Done (replicate (Z.to_nat n) c ++ drop (Z.to_nat n) buffer)
  else Fault.

(** The C string that starts at the head of an array: the characters before
    the first NUL.  Scanning an array that holds no NUL runs off its end. *)
Fixpoint c_str (buffer : list ascii) : outcome (list ascii) :=
  match buffer with
  | [] => Fault
  | c :: r => if Ascii.eqb c NUL then Done [] else s ← c_str r; Done (c :: s)
  end.

(** An array of [MESSAGE_BUFFER_SIZE] chars that holds a NUL. *)
Definition terminated (buffer : list ascii) : bool :=
  (Z.of_nat (length buffer) =? MESSAGE_BUFFER_SIZE) && existsb (Ascii.eqb NUL) buffer.

(** ** read_serial *)

(** The [while] loop of [read_serial]; the result carries the locals
    [buff_pos] and [bufferfull] as they are when the loop is left. *)
Fixpoint read_serial_loop (fuel : nat) (softSerial : PortId) (d : Device)
    (buffer : list ascii) (buff_pos : Z) (bufferfull : bool)
    : outcome (Device * list ascii * Z * bool) :=
  match fuel with
  | O => Spin
  | S fuel' =>
      if (0 <? available (port softSerial d)) && negb bufferfull then
        let '(v, p) := ss_read (port softSerial d) in
        let c := to_uchar v in
        let d1 := set_port softSerial p d in
        if buff_pos =? MESSAGE_BUFFER_SIZE - 1 then
          Done (emit (SerialPrintln (nl +:+ "Buffer full")) d1, buffer, buff_pos, true)
        else
          buffer1 ← store buffer buff_pos c;
          read_serial_loop fuel' softSerial (delay 2 d1) buffer1 (buff_pos + 1) bufferfull
      else Done (d, buffer, buff_pos, bufferfull)
  end.

(** [read_serial(softSerial, buffer)].  The loop head is evaluated at most
    [MESSAGE_BUFFER_SIZE] times, which is the fuel granted (see
    [read_serial_runs]).  The final value of the local [bufferfull]
    is returned next to the device and the buffer. *)
Definition read_serial (softSerial : PortId) (d : Device) (buffer : list ascii)
    : outcome (Device * list ascii * bool) :=
  buffer0 ← memset buffer NUL MESSAGE_BUFFER_SIZE;
  '(d1, buffer1, buff_pos, bufferfull) ←
     read_serial_loop (Z.to_nat MESSAGE_BUFFER_SIZE) softSerial d buffer0 0 false;
  buffer2 ← store buffer1 buff_pos NUL;
  Done (d1, buffer2, bufferfull).

(** The bytes a port hands to a reader that, like [read_serial], takes one
    byte whenever one is available and waits 2 ms after each: at most [n]
    of them. *)
Fixpoint drain (n : nat) (id : PortId) (d : Device) : list ascii :=
  match n with
  | O => []
  | S n' =>
      if 0 <? available (port id d) then
        let '(v, p) := ss_read (port id d) in
        to_uchar v :: drain n' id (elapse 2 (set_port id p d))
      else []
  end.

(** What the source offers in one read cycle, cut at the buffer size. *)
Definition offered (id : PortId) (d : Device) : list ascii :=
  drain (Z.to_nat MESSAGE_BUFFER_SIZE) id d.

(** ** cleanSerial *)

(** [while (p.available()) p.read();] on a receive buffer. *)
Fixpoint discard (rx : list ascii) : list ascii :=
  match rx with
  | [] => []
  | _ :: r => discard r
  end.

Definition cleanSerial (softSerial : PortId) (d : Device) : Device :=
  let d1 := set_Serial_rx (discard (Serial_rx d)) d in
  let p := port softSerial d1 in
  set_port softSerial {| rx := discard (rx p); wire := wire p |} d1.

(** ** Strings of the Arduino core *)

(** [String(n)] for an unsigned integer: decimal digits. *)
Definition String_of_uint (n : Z) : string :=
  DecimalString.NilZero.string_of_uint (N.to_uint (Z.to_N n)).

(** [s.length()] *)
Definition String_length (s : string) : Z := Z.of_nat (String.length s) mod 2 ^ 32.

(** [Serial.write] of every character of a C string. *)
Definition echo (s : list ascii) (d : Device) : Device :=
  fold_left (fun d c => emit (SerialWrite c) d) s d.

(** The lines sent to the modem, oldest first: one per command exchange. *)
Fixpoint exchanges (t : list Event) : list string :=
  match t with
  | [] => []
  | PortPrintln GSM s :: r => s :: exchanges r
  | _ :: r => exchanges r
  end.

(** The guard of the [do ... while] of [sendATcommand]:
    [(millis() - send_time) < _timeout || ASSERT_BUFFER]. *)
Definition keep_waiting (elapsed _timeout : Z) (ASSERT_BUFFER : bool) : bool :=
  (elapsed <? _timeout) || ASSERT_BUFFER.

(** The longest one pass of the wait loop can take: the poll itself and a
    full [read_serial], 2 ms for each byte stored. *)
Definition pass_max (poll : Z) : Z := poll + 2 * (MESSAGE_BUFFER_SIZE - 1).

Section Firmware.

(** Time from one evaluation of the wait loop's guard to the next when the
    modem sends nothing, in ms. *)
Variable poll : Z.

(** [String(x, decimalPlaces)] and the conversion of a [String] to [bool]
    belong to the Arduino core, which is not part of the repository. *)
Variable String_double : float -> Z -> string.
Variable String_bool : string -> bool.

(** ** The diagnostics pages *)

Definition SendHTML (_body : string) : string :=
  let ptr := "<!DOCTYPE html><html>" +:+ nl +:+ " " in
  let ptr := ptr +:+ "<head><meta name='viewport' content='width=device-width, initial-scale=1.0' /><title>GPS TRACKER</title></head>" +:+ nl in
  let ptr := ptr +:+ "<body>" +:+ nl in
  let ptr := ptr +:+ "<style>" +:+ nl in
  let ptr := ptr +:+ "body{margin-top:50px;display:flex;flex-direction:column;padding:1rem;align-items:center}h1,h3{color:#2f2d2d;margin:1rem auto}" in
  let ptr := ptr +:+ "a,a:active,a:hover,a:visited{text-decoration:none;font-size:32px;color:#15ad8f}p{font-size:1rem;color:#3a3838;margin:12px auto}" in
  let ptr := ptr +:+ "button{padding:.5rem 1rem;outline:0;border-radius:5px;background-color:#0ba485;border:0;cursor:pointer;color:#fff;font-size:24px}" in
  let ptr := ptr +:+ "</style>" +:+ nl in
  let ptr := ptr +:+ "<h3><i>Webserver in Access Point (AP) Mode</i></h3>" +:+ nl in
  let ptr := ptr +:+ "<div style='display: flex; gap: 1rem'><a href='/'>Home</a> <a href='/logs'>Serial logs</a></div>" +:+ nl in
  let ptr := if String_bool _body then ptr +:+ _body
             else ptr +:+ "<p> NOTHING TO SHOW</p>" in
  let ptr := ptr +:+ "<a href='/restart'><button>RESTART</button></a>" +:+ nl in
  let ptr := ptr +:+ "</body>" +:+ nl in
  ptr +:+ "</html>" +:+ nl.

Definition logs_body (log : list ascii) : string :=
  let body := "<h1>Serial logs</h1>" +:+ nl in
  let body := body +:+ "<div style=" +:+ dq +:+ "margin:8px 4px;border:1px solid red; padding: 4px" +:+ dq +:+ ">" +:+ nl in
  let body := body +:+ ("<p>" +:+ string_of_list_ascii log +:+ "</p>") in
  body +:+ "</div>" +:+ nl.

Definition display_logs (d : Device) : outcome Device :=
  log ← c_str (msgStream d);
  Done (emit (ServerSend 200 "text/html" (SendHTML (logs_body log))) d).

(** ** sendATcommand *)

(** The body of the [do ... while] loop: read what the modem has sent, if
    anything, into [msgStream]. *)
Definition capture (softSerial : PortId) (d : Device) : outcome Device :=
  if negb (available (port softSerial d) =? 0) then
    '(d', buffer, _) ← read_serial softSerial d (msgStream d);
    Done (set_msgStream buffer d')
  else Done d.

(** [millis() - send_time] in 32-bit unsigned arithmetic. *)
Definition elapsed (d : Device) (send_time : Z) : Z :=
  (millis d - send_time) mod 2 ^ 32.

(** The [do ... while] loop.  The guard is evaluated [poll] ms after the
    pass began, later by what [read_serial] took. *)
Fixpoint wait_loop (fuel : nat) (softSerial : PortId) (d : Device)
    (send_time _timeout : Z) (ASSERT_BUFFER : bool) : outcome Device :=
  match fuel with
  | O => Spin
  | S fuel' =>
      d1 ← capture softSerial d;
      let d2 := elapse poll d1 in
      if keep_waiting (elapsed d2 send_time) _timeout ASSERT_BUFFER
      then wait_loop fuel' softSerial d2 send_time _timeout ASSERT_BUFFER
      else Done d2
  end.

Definition sendATcommand (fuel : nat) (softSerial : PortId) (CMD : string)
    (_timeout : Z) (fill_buffer : bool) (d : Device) : outcome Device :=
  let d := emit (SerialPrintln "*********") d in
  let ASSERT_BUFFER := fill_buffer in
  let d := cleanSerial softSerial d in
  let d := emit (PortPrintln softSerial CMD) d in
  let send_time := millis d in
  d ← wait_loop fuel softSerial d send_time _timeout ASSERT_BUFFER;
  s ← c_str (msgStream d);
  display_logs (echo s d).

(** The defaults of the declaration: [timeout = 4000], [fill_buffer = false]. *)
Definition default_timeout : Z := 4000.
Definition default_fill_buffer : bool := false.

(** ** PUT_REQUEST *)

Definition PUT_REQUEST (fuel : nat) (data : string) (d : Device) : outcome Device :=
  let data_length := String_length data in
  let HTTPCFG := "AT+QHTTPPUT=" +:+ String_of_uint data_length +:+ ",30,60" in
  let d := emit (SerialPrintln HTTPCFG) d in
  let d := emit (SerialPrintln data) d in
  d ← sendATcommand fuel GSM HTTPCFG default_timeout default_fill_buffer d;
  sendATcommand fuel GSM data default_timeout default_fill_buffer d.

(** ** sys_restart

    [ESP.restart()] does not return; the model ends at the reset. *)
Definition sys_restart (d : Device) : Device :=
  let d := emit (SerialPrintln "Restarting system") d in
  let d := emit WiFiDisconnect d in
  let d := emit (WiFiMode WIFI_OFF) d in
  let d := emit (ServerSend 200 "text/html" (SendHTML "Restarting ...")) d in
  let d := delay 5000 d in
  emit EspRestart d.

(** ** The location tracker *)

(** The globals [_lat], [_long], [_prevLat], [_prevLong], [_newLat],
    [_newLong] and [isLocationUpdated]. *)
Record Tracker : Type := {
  _lat : float;
  _long : float;
  _prevLat : float;
  _prevLong : float;
  _newLat : float;
  _newLong : float;
  isLocationUpdated : bool
}.

(** [x != y] on [double]: true also when either side is not a number. *)
Definition fne (x y : float) : bool := negb (x =? y)%float.

(** The TinyGPSPlus decoder is an external library: [G] is the state of the
    [gps] object, [encode] feeds it one character, [isValid], [lat] and
    [lng] read [gps.location]. *)
Variable G : Type.
Variable encode : G -> ascii -> G.
Variable isValid : G -> bool.
Variable lat : G -> float.
Variable lng : G -> float.

Record World : Type := {
  dev : Device;
  gps : G;
  trk : Tracker
}.

Definition set_dev (d : Device) (w : World) : World :=
  {| dev := d; gps := gps w; trk := trk w |}.

(** The payload built in [gps_encode]. *)
Definition gps_update (t : Tracker) : string :=
  "{" +:+ dq +:+ "lat" +:+ dq +:+ ":" +:+ String_double (_newLat t) 9
  +:+ "," +:+ dq +:+ "long" +:+ dq +:+ ":" +:+ String_double (_newLong t) 9 +:+ "}".

(** The decoder after it has been fed a frame. *)
Definition decode (frame : list ascii) (g : G) : G := fold_left encode frame g.

(** [_lat = gps.location.lat(); _long = gps.location.lng();] *)
Definition set_current (la lo : float) (t : Tracker) : Tracker :=
  {| _lat := la; _long := lo;
     _prevLat := _prevLat t; _prevLong := _prevLong t;
     _newLat := _newLat t; _newLong := _newLong t;
     isLocationUpdated := isLocationUpdated t |}.

(** [_lat != _newLat || _long != _newLong] *)
Definition changed (t : Tracker) : bool :=
  fne (_lat t) (_newLat t) || fne (_long t) (_newLong t).

(** [_newLat = _lat; _newLong = _long; isLocationUpdated = true;] *)
Definition report (t : Tracker) : Tracker :=
  {| _lat := _lat t; _long := _long t;
     _prevLat := _prevLat t; _prevLong := _prevLong t;
     _newLat := _lat t; _newLong := _long t;
     isLocationUpdated := true |}.

(** [_prevLat = _newLat; _prevLong = _newLong; isLocationUpdated = false;] *)
Definition retain (t : Tracker) : Tracker :=
  {| _lat := _lat t; _long := _long t;
     _prevLat := _newLat t; _prevLong := _newLong t;
     _newLat := _newLat t; _newLong := _newLong t;
     isLocationUpdated := false |}.

Definition gps_encode (fuel : nat) (w : World) : outcome World :=
  frame ← c_str (msgStream (dev w));
  let g := decode frame (gps w) in
  let d := echo frame (dev w) in
  let t := trk w in
  let '(t, d) :=
    if isValid g then
      let t := set_current (lat g) (lng g) t in
      let d := emit (SerialPrint (nl +:+ "Latitude= ")) d in
      let d := emit (SerialPrintDouble (_lat t) 9) d in
      let d := emit (SerialPrint " Longitude= ") d in
      let d := emit (SerialPrintlnDouble (_long t) 9) d in
      (t, d)
    else (t, d) in
  if changed t then
    let t := report t in
    let d := emit (SerialPrint (nl +:+ "Location Updated to: ")) d in
    let d := emit (SerialPrint "Latitude= ") d in
    let d := emit (SerialPrintDouble (_newLat t) 9) d in
    let d := emit (SerialPrint " Longitude= ") d in
    let d := emit (SerialPrintlnDouble (_newLong t) 9) d in
    d ← PUT_REQUEST fuel (gps_update t) d;
    Done {| dev := d; gps := g; trk := t |}
  else
    let t := retain t in
    Done {| dev := d; gps := g; trk := t |}.

(** The tracker's globals after [gps_encode] has seen decoder state [g]. *)
Definition located (g : G) (t : Tracker) : Tracker :=
  if isValid g then set_current (lat g) (lng g) t else t.

Definition track (g : G) (t : Tracker) : Tracker :=
  if changed (located g t) then report (located g t) else retain (located g t).

(** The two commands of one upload, in the order they are sent. *)
Definition upload (data : string) : list string :=
  ["AT+QHTTPPUT=" +:+ String_of_uint (String_length data) +:+ ",30,60"; data].

(** The globals as the program starts: every coordinate 0, no update. *)
Definition Tracker0 : Tracker :=
  {| _lat := 0; _long := 0; _prevLat := 0; _prevLong := 0;
     _newLat := 0; _newLong := 0; isLocationUpdated := false |}.

(** The states the tracker can be in: the start, and what [gps_encode]
    leaves.  The rest of the program ([read_serial] on the GPS port, the
    diagnostics handlers, the clock) changes the device only. *)
Inductive reachable : World -> Prop :=
| reach_start (d : Device) (g : G) :
    reachable {| dev := d; gps := g; trk := Tracker0 |}
| reach_device (w : World) (d : Device) :
    reachable w -> reachable (set_dev d w)
| reach_gps_encode (w w' : World) (fuel : nat) :
    reachable w -> gps_encode fuel w = Done w' -> reachable w'.

End Firmware.

Arguments dev {G} w.
Arguments gps {G} w.
Arguments trk {G} w.
Arguments Build_World {G} dev gps trk.
Arguments set_dev {G} d w.
Arguments gps_encode poll String_double String_bool {G} encode isValid lat lng fuel w.
Arguments reachable poll String_double String_bool {G} encode isValid lat lng w.
Arguments decode {G} encode frame g.
Arguments located {G} isValid lat lng g t.
Arguments track {G} isValid lat lng g t.

(** The decoder reports numbers: a valid position is never NaN. *)
Definition numeric {G : Type} (isValid : G -> bool) (lat lng : G -> float) : Prop :=
  forall g : G,
    isValid g = true -> (lat g =? lat g)%float = true /\ (lng g =? lng g)%float = true.

(** Two doubles one unit in the last place apart. *)
Definition one_ulp_apart (x y : float) : Prop :=
  (y = next_up x /\ (x <? y)%float = true) \/
  (x = next_up y /\ (y <? x)%float = true).

(** ** Instances used to run the model *)

(** [k] decimal digits of [n], most significant first. *)
Fixpoint fixed_digits (k : nat) (n : Z) : string :=
  match k with
  | O => EmptyString
  | S k' => fixed_digits k' (n / 10)
            +:+ String (ascii_of_N (Z.to_N (48 + n mod 10))) EmptyString
  end.

(** [|x| * 10 ^ digits], rounded to the nearest integer. *)
Definition scaled (x : float) (digits : Z) : Z :=
  match Prim2SF x with
  | S754_finite _ m e =>
      let num := Z.pos m * 10 ^ digits in
      if 0 <=? e then num * 2 ^ e else (num + 2 ^ (- e - 1)) / 2 ^ (- e)
  | _ => 0
  end.

(** A stand-in for [String(x, digits)] of the Arduino core: fixed notation
    with exactly [digits] fractional digits, rounded to the nearest. *)
Definition fixed_point (x : float) (digits : Z) : string :=
  let n := scaled x digits in
  (if (x <? 0)%float && negb (n =? 0) then "-" else "")
  +:+ String_of_uint (n / 10 ^ digits) +:+ "."
  +:+ fixed_digits (Z.to_nat digits) (n mod 10 ^ digits).

(** The doubles nearest to 1.234567890 and 36.987654321. *)
Definition sample_lat : float := 0x1.3c0ca4283de1bp+0%float.
Definition sample_lng : float := 0x1.27e6b74f0395bp+5%float.

(** A stand-in for the decoder.  It knows a few positions and reports the
    one it holds as valid once a ['$'] has been fed to it; ['?'] makes it
    lose its fix, ['+'] moves it one unit in the last place north. *)
Inductive Place : Type := Sample | SampleNorth | Origin.

Record TestGps : Type := {
  fix_seen : bool;
  place : Place
}.

Definition test_encode (g : TestGps) (c : ascii) : TestGps :=
  if Ascii.eqb c "$" then {| fix_seen := true; place := place g |}
  else if Ascii.eqb c "?" then {| fix_seen := false; place := place g |}
  else if Ascii.eqb c "+" then {| fix_seen := fix_seen g; place := SampleNorth |}
  else g.

Definition test_lat (g : TestGps) : float :=
  match place g with
  | Sample => sample_lat
  | SampleNorth => next_up sample_lat
  | Origin => 0
  end.

Definition test_lng (g : TestGps) : float :=
  match place g with
  | Sample | SampleNorth => sample_lng
  | Origin => 0
  end.

(** A device at rest: clock at [t], nothing received or pending, the
    buffer zeroed, nothing emitted yet. *)
Definition idle_port : SoftwareSerial := {| rx := []; wire := [] |}.

Definition idle (t : Z) : Device :=
  {| now := t; Serial_rx := []; GSM_Serial := idle_port; GPS_Serial := idle_port;
     msgStream := replicate (Z.to_nat MESSAGE_BUFFER_SIZE) NUL; trace := [] |}.

(** The idle device with [frame] in the buffer, as [read_serial] leaves it. *)
Definition holding (frame : list ascii) (t : Z) : Device :=
  set_msgStream (frame ++ replicate (Z.to_nat MESSAGE_BUFFER_SIZE - length frame)%nat NUL)
                (idle t).

(** The idle device with [data] waiting in the receive buffer of a port. *)
Definition receiving (id : PortId) (data : list ascii) (t : Z) : Device :=
  set_port id {| rx := data; wire := [] |} (idle t).

(** The program as it starts, with [frame] read from the GPS and the
    stand-in decoder holding the sample position. *)
Definition booted (frame : string) : World TestGps :=
  {| dev := holding (list_ascii_of_string frame) 0;
     gps := {| fix_seen := false; place := Sample |};
     trk := Tracker0 |}.

(** The program when the sample position has been reported and [frame] has
    been read from the GPS. *)
Definition reported (frame : string) : World TestGps :=
  {| dev := holding (list_ascii_of_string frame) 20000;
     gps := {| fix_seen := true; place := Sample |};
     trk := {| _lat := sample_lat; _long := sample_lng;
               _prevLat := 0; _prevLong := 0;
               _newLat := sample_lat; _newLong := sample_lng;
               isLocationUpdated := true |} |}.

(** The program as it starts, with [frame] read from the GPS and the
    stand-in decoder holding latitude 0, longitude 0. *)
Definition at_origin (frame : string) : World TestGps :=
  {| dev := holding (list_ascii_of_string frame) 0;
     gps := {| fix_seen := false; place := Origin |};
     trk := Tracker0 |}.

(** The stand-ins for the Arduino core and the decoder, and a poll of 1 s. *)
Definition test_gps_encode (fuel : nat) (w : World TestGps) : outcome (World TestGps) :=
  gps_encode 1000 fixed_point (fun _ => true) test_encode fix_seen test_lat test_lng fuel w.

(** ** enableGPRS *)

Section Bringup.

Variable poll : Z.
Variable String_bool : string -> bool.

(** [CLOUD_URL = FIREBASE_URL], a macro of secrets.h, which is not part of
    the repository. *)
Variable CLOUD_URL : string.

Definition enableGPRS (fuel : nat) (d : Device) : outcome Device :=
  let d := emit (SerialPrintln "ENABLING GPRS >>>>>>") d in
  let url := "AT+QHTTPCFG=" +:+ dq +:+ "url" +:+ dq +:+ "," +:+ dq in
  let url := url +:+ CLOUD_URL in
  let url := url +:+ dq in
  d ← sendATcommand poll String_bool fuel GSM "AT+CGATT=1"
        default_timeout default_fill_buffer d;
  d ← sendATcommand poll String_bool fuel GSM "AT+QICSGP=1,1"
        default_timeout default_fill_buffer d;
  d ← sendATcommand poll String_bool fuel GSM "AT+QIACT=1"
        default_timeout default_fill_buffer d;
  d ← sendATcommand poll String_bool fuel GSM
        ("AT+QHTTPCFG=" +:+ dq +:+ "sslctxid" +:+ dq +:+ ",1")
        default_timeout default_fill_buffer d;
  d ← sendATcommand poll String_bool fuel GSM url
        default_timeout default_fill_buffer d;
  d ← sendATcommand poll String_bool fuel GSM
        ("AT+QHTTPCFG=" +:+ dq +:+ "contextid" +:+ dq +:+ ",1")
        default_timeout default_fill_buffer d;
  d ← sendATcommand poll String_bool fuel GSM
        ("AT+QHTTPCFG=" +:+ dq +:+ "responseheader" +:+ dq +:+ ",1")
        default_timeout default_fill_buffer d;
  d ← sendATcommand poll String_bool fuel GSM
        ("AT+QHTTPCFG=" +:+ dq +:+ "rspout/auto" +:+ dq +:+ ",1")
        default_timeout default_fill_buffer d;
  sendATcommand poll String_bool fuel GSM
    ("AT+QHTTPCFG=" +:+ dq +:+ "header" +:+ dq +:+ "," +:+ dq
     +:+ "Content-Type: application/json" +:+ dq)
    default_timeout default_fill_buffer d.

(** The commands of [enableGPRS], in the order they are sent. *)
Definition gprs_commands : list string :=
  [ "AT+CGATT=1";
    "AT+QICSGP=1,1";
    "AT+QIACT=1";
    "AT+QHTTPCFG=" +:+ dq +:+ "sslctxid" +:+ dq +:+ ",1";
    "AT+QHTTPCFG=" +:+ dq +:+ "url" +:+ dq +:+ "," +:+ dq +:+ CLOUD_URL +:+ dq;
    "AT+QHTTPCFG=" +:+ dq +:+ "contextid" +:+ dq +:+ ",1";
    "AT+QHTTPCFG=" +:+ dq +:+ "responseheader" +:+ dq +:+ ",1";
    "AT+QHTTPCFG=" +:+ dq +:+ "rspout/auto" +:+ dq +:+ ",1";
    "AT+QHTTPCFG=" +:+ dq +:+ "header" +:+ dq +:+ "," +:+ dq
      +:+ "Content-Type: application/json" +:+ dq ].

End Bringup.

(** ** loop *)

Section Loop.

Variable poll : Z.
Variable String_double : float -> Z -> string.
Variable String_bool : string -> bool.
Variable G : Type.
Variable encode : G -> ascii -> G.
Variable isValid : G -> bool.
Variable lat : G -> float.
Variable lng : G -> float.

(** [server.handleClient()] belongs to the ESP8266WebServer library: it
    serves a pending request, if any, through the handlers registered in
    [setup]. *)
Variable handleClient : World G -> outcome (World G).

(** The program's state between two passes of [loop]: the world and the
    global [last_gps_read]. *)
Record Program : Type := {
  world : World G;
  last_gps_read : Z
}.

(** The [if] statement of [loop]. *)
Definition poll_gps (fuel : nat) (p : Program) : outcome Program :=
  let w := world p in
  if negb (available (GPS_Serial (dev w)) =? 0)
     && (10000 <? (millis (dev w) - last_gps_read p) mod 2 ^ 32)
  then
    '(d, buffer, _) ← read_serial GPS (dev w) (msgStream (dev w));
    w ← gps_encode poll String_double String_bool encode isValid lat lng fuel
          (set_dev (set_msgStream buffer d) w);
    Done {| world := w; last_gps_read := millis (dev w) mod 2 ^ 32 |}
  else Done p.

Definition loop (fuel : nat) (p : Program) : outcome Program :=
  w ← handleClient (world p);
  poll_gps fuel {| world := w; last_gps_read := last_gps_read p |}.

End Loop.

Arguments Program G : clear implicits.
Arguments Build_Program {G} world last_gps_read.
Arguments world {G} p.
Arguments last_gps_read {G} p.
Arguments poll_gps poll String_double String_bool {G} encode isValid lat lng fuel p.
Arguments loop poll String_double String_bool {G} encode isValid lat lng handleClient fuel p.

(** ** gps_status_send *)

Section Status.

Variable String_double : float -> Z -> string.
Variable String_bool : string -> bool.

(** The [data] that [gps_status_send] builds from the tracker's globals. *)
Definition gps_status_data (t : Tracker) : string :=
  let data := "<h1>GPS COORDS</h1>" +:+ nl in
  let data :=
    if fne (_lat t) 0 && fne (_long t) 0 then
      let data := data +:+ ("<p>Current Latitude: " +:+ String_double (_lat t) 9
                            +:+ "</P>" +:+ nl) in
      data +:+ ("<p>Current Longitude: " +:+ String_double (_long t) 9 +:+ "</P>" +:+ nl)
    else data in
  if isLocationUpdated t then
    let data := data +:+ ("<div style=" +:+ dq
                          +:+ "padding:4px;border: 1px solid green;word-wrap:break-word;"
                          +:+ dq +:+ ">") in
    let data := data +:+ ("<p>Updated latitude FROM: " +:+ String_double (_prevLat t) 9
                          +:+ " TO: " +:+ String_double (_newLat t) 9 +:+ "</P>" +:+ nl) in
    let data := data +:+ ("<p>Updated longtitude FROM: " +:+ String_double (_prevLong t) 9
                          +:+ " TO: " +:+ String_double (_newLong t) 9 +:+ "</P>" +:+ nl) in
    data +:+ "</div>" +:+ nl
  else
    data +:+ "<p> GPS location not updated</p>" +:+ nl.

Definition gps_status_send {G : Type} (w : World G) : World G :=
  let d := emit (SerialPrintln "Sending GPS data") (dev w) in
  let data := gps_status_data (trk w) in
  set_dev (emit (ServerSend 200 "text/html" (SendHTML String_bool data)) d) w.

End Status.

(** Commands sent one after the other, each with the default timeout and
    the fill-buffer flag false, as [enableGPRS] and [PUT_REQUEST] do. *)
Fixpoint send_all (poll : Z) (String_bool : string -> bool) (fuel : nat)
    (commands : list string) (d : Device) : outcome Device :=
  match commands with
  | [] => Done d
  | CMD :: rest =>
      d ← sendATcommand poll String_bool fuel GSM CMD default_timeout default_fill_buffer d;
      send_all poll String_bool fuel rest d
  end.

(** ** What the wait loop reads *)

(** The device as the wait loop of [sendATcommand] begins: the banner
    printed, the port flushed, the command sent. *)
Definition sent (softSerial : PortId) (CMD : string) (d : Device) : Device :=
  emit (PortPrintln softSerial CMD)
       (cleanSerial softSerial (emit (SerialPrintln "*********") d)).

(** The frames that the reads of the wait loop store, oldest first: one for
    each pass of [wait_loop] that finds bytes available, the bytes that
    [read_serial] is offered in that pass, at most [MESSAGE_BUFFER_SIZE - 1]
    of them. *)
Fixpoint captures (poll : Z) (fuel : nat) (softSerial : PortId) (d : Device)
    (send_time _timeout : Z) (ASSERT_BUFFER : bool) : list (list ascii) :=
  match fuel with
  | O => []
  | S fuel' =>
      match capture softSerial d with
      | Done d1 =>
          let here :=
            if negb (available (port softSerial d) =? 0)
            then [take (Z.to_nat (MESSAGE_BUFFER_SIZE - 1)) (offered softSerial d)]
            else [] in
          let d2 := elapse poll d1 in
          if keep_waiting (elapsed d2 send_time) _timeout ASSERT_BUFFER
          then here ++ captures poll fuel' softSerial d2 send_time _timeout ASSERT_BUFFER
          else here
      | _ => []
      end
  end.

(** The frames read from the modem while [sendATcommand] waits. *)
Definition received (poll : Z) (fuel : nat) (CMD : string) (_timeout : Z) (d : Device)
    : list (list ascii) :=
  captures poll fuel GSM (sent GSM CMD d) (millis (sent GSM CMD d)) _timeout false.

(** A modem whose answer starts [t] ms after the device's start and comes
    one byte every 2 ms, [MESSAGE_BUFFER_SIZE] bytes in all. *)
Definition stream (t : Z) : list (Z * ascii) :=
  List.map (fun i => (t + 2 * Z.of_nat i, "a"%char)) (seq 0 (Z.to_nat MESSAGE_BUFFER_SIZE)).

Definition streaming (t : Z) : Device :=
  set_port GSM {| rx := []; wire := stream t |} (idle 0).

(** A modem that answers "OK" 5 ms after the device's start. *)
Definition prompt_reply : Device :=
  set_port GSM {| rx := []; wire := [(5, "O"%char); (5, "K"%char)] |} (idle 0).

(** A timeout 8192 ms short of 2^32 ms, and the device waiting for the
    answer to "AT", [t] ms after its start, when the answer starts 1 ms
    before that timeout. *)
Definition wrap_timeout : Z := 4294959104.

Definition wrap_waiting (t : Z) : Device :=
  {| now := t; Serial_rx := [];
     GSM_Serial := {| rx := []; wire := stream (wrap_timeout - 1) |};
     GPS_Serial := idle_port;
     msgStream := replicate (Z.to_nat MESSAGE_BUFFER_SIZE) NUL;
     trace := [SerialPrintln "*********"; PortPrintln GSM "AT"] |}.

(** The characters of a list before its first NUL. *)
Fixpoint before_NUL (l : list ascii) : list ascii :=
  match l with
  | [] => []
  | c :: r => if Ascii.eqb c NUL then [] else c :: before_NUL r
  end.

(** The stand-ins again, for [poll_gps]. *)
Definition test_poll_gps (fuel : nat) (p : Program TestGps) : outcome (Program TestGps) :=
  poll_gps 1000 fixed_point (fun _ => true) test_encode fix_seen test_lat test_lng fuel p.

(** The program 20 s after its start, nothing read from the GPS yet and
    [data] waiting on the GPS port. *)
Definition polling (data : string) : Program TestGps :=
  {| world := {| dev := receiving GPS (list_ascii_of_string data) 20000;
                 gps := {| fix_seen := false; place := Sample |};
                 trk := Tracker0 |};
     last_gps_read := 0 |}.

(** * Properties *)

(** ** Basic facts *)

Lemma bind_Done {A B : Type} (a : A) (k : A -> outcome B) : (Done a ≫= k) = k a.
Proof. reflexivity. Qed.

Lemma to_uchar_of_ascii (c : ascii) : to_uchar (Z.of_N (N_of_ascii c)) = c.
Proof.
  unfold to_uchar.
  pose proof (N_ascii_bounded c) as Hb.
  rewrite Z.mod_small by lia.
  rewrite N2Z.id. apply ascii_N_embedding.
Qed.

Lemma store_Done (pre post : list ascii) (x c : ascii) :
  store (pre ++ x :: post) (Z.of_nat (length pre)) c = Done (pre ++ c :: post).
Proof.
  unfold store.
  rewrite length_app. simpl length.
  replace ((0 <=? Z.of_nat (length pre)) && (Z.of_nat (length pre) <? Z.of_nat (length pre + S (length post))))
    with true by (symmetry; apply andb_true_iff; split; [apply Z.leb_le | apply Z.ltb_lt]; lia).
  rewrite Nat2Z.id.
  f_equal.
  rewrite insert_app_r_alt by lia.
  replace (length pre - length pre)%nat with 0%nat by lia.
  reflexivity.
Qed.

(** A write that is performed lies inside the array. *)
Lemma store_in_bounds (buffer buffer' : list ascii) (i : Z) (c : ascii) :
  store buffer i c = Done buffer' -> 0 <= i < Z.of_nat (length buffer).
Proof.
  unfold store. destruct (0 <=? i) eqn:H0; destruct (i <? Z.of_nat (length buffer)) eqn:H1;
    simpl; try discriminate.
  intros _. apply Z.leb_le in H0. apply Z.ltb_lt in H1. lia.
Qed.

Lemma memset_whole (buffer : list ascii) (c : ascii) :
  Z.of_nat (length buffer) = MESSAGE_BUFFER_SIZE ->
  memset buffer c MESSAGE_BUFFER_SIZE = Done (replicate (Z.to_nat MESSAGE_BUFFER_SIZE) c).
Proof.
  intros Hlen. unfold memset.
  rewrite Hlen, Z.leb_refl.
  rewrite drop_ge by lia.
  rewrite app_nil_r. reflexivity.
Qed.

(** ** The loop of read_serial *)

Lemma MESSAGE_BUFFER_SIZE_eq : MESSAGE_BUFFER_SIZE = 4097.
Proof. reflexivity. Qed.

Lemma available_pos_read (p : SoftwareSerial) :
  (0 <? available p) = true ->
  exists c r, rx p = c :: r /\
              ss_read p = (Z.of_N (N_of_ascii c), {| rx := r; wire := wire p |}).
Proof.
  unfold available, ss_read. destruct (rx p) as [|c r]; simpl.
  - discriminate.
  - intros _. exists c, r. split; reflexivity.
Qed.

Lemma drain_S (n : nat) (id : PortId) (d : Device) :
  drain (S n) id d =
  if 0 <? available (port id d) then
    let '(v, p) := ss_read (port id d) in
    to_uchar v :: drain n id (elapse 2 (set_port id p d))
  else [].
Proof. reflexivity. Qed.

Lemma read_serial_loop_S (fuel : nat) (id : PortId) (d : Device)
    (buffer : list ascii) (buff_pos : Z) (bufferfull : bool) :
  read_serial_loop (S fuel) id d buffer buff_pos bufferfull =
  if (0 <? available (port id d)) && negb bufferfull then
    let '(v, p) := ss_read (port id d) in
    let c := to_uchar v in
    let d1 := set_port id p d in
    if buff_pos =? MESSAGE_BUFFER_SIZE - 1 then
      Done (emit (SerialPrintln (nl +:+ "Buffer full")) d1, buffer, buff_pos, true)
    else
      buffer1 ← store buffer buff_pos c;
      read_serial_loop fuel id (delay 2 d1) buffer1 (buff_pos + 1) bufferfull
  else Done (d, buffer, buff_pos, bufferfull).
Proof. reflexivity. Qed.

(** With room for [r] more bytes before the last cell, the loop stores the
    first [r] bytes the port hands over and raises [bufferfull] exactly
    when one more was there. *)
Lemma read_serial_loop_spec (r : nat) :
  forall (fuel : nat) (id : PortId) (d : Device) (pre : list ascii),
    (r < fuel)%nat ->
    Z.of_nat (length pre) + Z.of_nat r = MESSAGE_BUFFER_SIZE - 1 ->
    let data := drain (S r) id d in
    exists d',
      read_serial_loop fuel id d (pre ++ replicate (S r) NUL)
                       (Z.of_nat (length pre)) false
      = Done (d',
              pre ++ take r data ++ replicate (S r - length (take r data)) NUL,
              Z.of_nat (length pre + length (take r data)),
              bool_decide (length data = S r)).
Proof.
  induction r as [|r IH]; intros fuel id d pre Hfuel Hroom data.
  all: pose proof MESSAGE_BUFFER_SIZE_eq as Hsize.
  - destruct fuel as [|fuel]; [lia|].
    subst data. simpl.
    destruct (0 <? available (port id d)) eqn:Hav; simpl.
    + destruct (available_pos_read _ Hav) as (c & rest & _ & Hrd).
      rewrite Hrd.
      replace (Z.of_nat (length pre) =? MESSAGE_BUFFER_SIZE - 1) with true
        by (symmetry; apply Z.eqb_eq; lia).
      eexists. repeat f_equal. lia.
    + exists d. repeat f_equal. lia.
  - destruct fuel as [|fuel]; [lia|].
    subst data. rewrite read_serial_loop_S, drain_S.
    destruct (0 <? available (port id d)) eqn:Hav; cbn [andb negb].
    + destruct (available_pos_read _ Hav) as (c & rest & _ & Hrd).
      rewrite Hrd. cbv zeta.
      replace (Z.of_nat (length pre) =? MESSAGE_BUFFER_SIZE - 1) with false
        by (symmetry; apply Z.eqb_neq; lia).
      rewrite to_uchar_of_ascii.
      change (replicate (S (S r)) NUL) with (NUL :: replicate (S r) NUL).
      rewrite store_Done, bind_Done.
      unfold delay.
      set (d1 := elapse 2 (set_port id {| rx := rest; wire := wire (port id d) |} d)).
      destruct (IH fuel id d1 (pre ++ [c])) as (d' & Hd'); [lia | rewrite length_app; simpl; lia |].
      exists d'.
      rewrite length_app in Hd'. cbn [length] in Hd'.
      replace (Z.of_nat (length pre) + 1) with (Z.of_nat (length pre + 1)) by lia.
      replace (pre ++ c :: replicate (S r) NUL)
        with ((pre ++ [c]) ++ replicate (S r) NUL)
        by (rewrite <- app_assoc; reflexivity).
      rewrite Hd'. cbn [take length].
      f_equal. f_equal; [f_equal; [f_equal|] |].
      * rewrite <- app_assoc. reflexivity.
      * lia.
      * apply bool_decide_ext. lia.
    + exists d. cbn [take length app]. repeat f_equal; try lia.
Qed.

Lemma exchanges_app (t1 t2 : list Event) :
  exchanges (t1 ++ t2) = exchanges t1 ++ exchanges t2.
Proof.
  induction t1 as [|e t1 IH]; simpl; [reflexivity|].
  destruct e; try assumption.
  destruct id; [simpl; f_equal|]; assumption.
Qed.

Lemma set_port_frame (id : PortId) (p : SoftwareSerial) (d : Device) :
  now (set_port id p d) = now d /\
  msgStream (set_port id p d) = msgStream d /\
  trace (set_port id p d) = trace d /\
  Serial_rx (set_port id p d) = Serial_rx d.
Proof. destruct id; repeat split. Qed.

Lemma port_set_port (id : PortId) (p : SoftwareSerial) (d : Device) :
  port id (set_port id p d) = p.
Proof. destruct id; reflexivity. Qed.

Lemma store_length (buffer buffer' : list ascii) (i : Z) (c : ascii) :
  store buffer i c = Done buffer' -> length buffer' = length buffer.
Proof.
  unfold store. destruct ((0 <=? i) && (i <? Z.of_nat (length buffer))); [|discriminate].
  intros [= <-]. apply length_insert.
Qed.

(** What the loop leaves alone, and how long it takes: 2 ms for every byte
    it stores. *)
Lemma read_serial_loop_frame (fuel : nat) :
  forall (id : PortId) (d : Device) (buffer : list ascii) (buff_pos : Z) (full : bool)
         (d' : Device) (buffer' : list ascii) (buff_pos' : Z) (full' : bool),
    read_serial_loop fuel id d buffer buff_pos full = Done (d', buffer', buff_pos', full') ->
    msgStream d' = msgStream d /\
    exchanges (trace d') = exchanges (trace d) /\
    length buffer' = length buffer /\
    buff_pos <= buff_pos' /\
    (buff_pos <= MESSAGE_BUFFER_SIZE - 1 -> buff_pos' <= MESSAGE_BUFFER_SIZE - 1) /\
    now d' = now d + 2 * (buff_pos' - buff_pos).
Proof.
  induction fuel as [|fuel IH]; intros id d buffer buff_pos full d' buffer' buff_pos' full' Hrun.
  - discriminate.
  - rewrite read_serial_loop_S in Hrun.
    destruct ((0 <? available (port id d)) && negb full).
    + destruct (ss_read (port id d)) as [v p]. cbv zeta in Hrun.
      destruct (set_port_frame id p d) as (Hnow & Hmsg & Htr & _).
      destruct (buff_pos =? MESSAGE_BUFFER_SIZE - 1) eqn:Hpos.
      * injection Hrun as <- <- <- <-. simpl.
        rewrite exchanges_app, app_nil_r, Htr, Hmsg, Hnow.
        repeat split; lia.
      * apply Z.eqb_neq in Hpos.
        destruct (store buffer buff_pos (to_uchar v)) as [buffer1| |] eqn:Hst; try discriminate.
        rewrite bind_Done in Hrun.
        apply IH in Hrun as (H1 & H2 & H3 & H4 & H5 & H6).
        apply store_length in Hst.
        simpl in H1, H2, H6. rewrite Hmsg in H1. rewrite Htr in H2. rewrite Hnow in H6.
        repeat split; try congruence; lia.
    + injection Hrun as <- <- <- <-. repeat split; lia.
Qed.

Lemma drain_length (n : nat) :
  forall (id : PortId) (d : Device), (length (drain n id d) <= n)%nat.
Proof.
  induction n as [|n IH]; intros id d; [simpl; lia|].
  rewrite drain_S.
  destruct (0 <? available (port id d)); [|simpl; lia].
  destruct (ss_read (port id d)) as [v p]. simpl.
  specialize (IH id (elapse 2 (set_port id p d))). lia.
Qed.

(** ** read_serial as a whole *)

Lemma read_serial_runs_room (r : nat) (id : PortId) (d : Device) (buffer : list ascii) :
  Z.to_nat MESSAGE_BUFFER_SIZE = S r ->
  Z.of_nat (length buffer) = MESSAGE_BUFFER_SIZE ->
  exists d',
    read_serial id d buffer
    = Done (d',
            take r (offered id d)
            ++ replicate (S r - length (take r (offered id d))) NUL,
            bool_decide (length (offered id d) = S r)) /\
    msgStream d' = msgStream d /\
    exchanges (trace d') = exchanges (trace d) /\
    now d <= now d' <= now d + 2 * (MESSAGE_BUFFER_SIZE - 1).
Proof.
  intros Hr Hlen.
  pose proof MESSAGE_BUFFER_SIZE_eq as Hsize.
  unfold read_serial. rewrite memset_whole by assumption. rewrite bind_Done.
  unfold offered. rewrite Hr.
  destruct (read_serial_loop_spec r (S r) id d []) as (d' & Hloop);
    [lia | simpl length; lia |].
  cbv zeta in Hloop. cbn [app length Nat.add] in Hloop.
  change (Z.of_nat 0) with 0 in Hloop.
  pose proof (read_serial_loop_frame _ _ _ _ _ _ _ _ _ _ Hloop) as (H1 & H2 & _ & H4 & H5 & H6).
  rewrite Hloop, bind_Done.
  set (kept := take r (drain (S r) id d)) in *.
  assert (Hkept : (length kept <= r)%nat) by (subst kept; rewrite length_take; lia).
  replace (S r - length kept)%nat with (S (r - length kept)) by lia.
  cbn [replicate].
  rewrite store_Done, bind_Done.
  exists d'. repeat split; try assumption; lia.
Qed.

Lemma room_eq : Z.to_nat MESSAGE_BUFFER_SIZE = S (Z.to_nat (MESSAGE_BUFFER_SIZE - 1)).
Proof. pose proof MESSAGE_BUFFER_SIZE_eq. lia. Qed.

(** [read_serial] on a buffer of [MESSAGE_BUFFER_SIZE] chars always
    returns: no write leaves the buffer and the loop ends within the
    iterations granted.  The buffer then holds the bytes offered, at most
    [MESSAGE_BUFFER_SIZE - 1] of them, and NULs after them. *)
Lemma read_serial_runs (id : PortId) (d : Device) (buffer : list ascii) :
  Z.of_nat (length buffer) = MESSAGE_BUFFER_SIZE ->
  exists d',
    read_serial id d buffer
    = Done (d',
            take (Z.to_nat (MESSAGE_BUFFER_SIZE - 1)) (offered id d)
            ++ replicate (S (Z.to_nat (MESSAGE_BUFFER_SIZE - 1))
                          - length (take (Z.to_nat (MESSAGE_BUFFER_SIZE - 1)) (offered id d)))
                         NUL,
            bool_decide (length (offered id d) = S (Z.to_nat (MESSAGE_BUFFER_SIZE - 1)))) /\
    msgStream d' = msgStream d /\
    exchanges (trace d') = exchanges (trace d) /\
    now d <= now d' <= now d + 2 * (MESSAGE_BUFFER_SIZE - 1).
Proof. exact (read_serial_runs_room _ id d buffer room_eq). Qed.

Lemma c_str_app_NUL (s rest : list ascii) :
  exists s', c_str (s ++ NUL :: rest) = Done s'.
Proof.
  induction s as [|c s [s' IH]]; simpl.
  - eexists; reflexivity.
  - destruct (Ascii.eqb c NUL); [eexists; reflexivity|].
    rewrite IH. eexists; reflexivity.
Qed.

Lemma terminated_c_str (buffer : list ascii) :
  terminated buffer = true -> exists s, c_str buffer = Done s.
Proof.
  unfold terminated. intros [_ Hex]%andb_true_iff.
  apply existsb_exists in Hex as (c & Hin & Hc).
  apply Ascii.eqb_eq in Hc. subst c.
  apply list_elem_of_In, list_elem_of_split in Hin as (l1 & l2 & ->).
  apply c_str_app_NUL.
Qed.

Lemma terminated_fill (kept : list ascii) (k : nat) :
  Z.of_nat (length kept) + Z.of_nat (S k) = MESSAGE_BUFFER_SIZE ->
  terminated (kept ++ replicate (S k) NUL) = true.
Proof.
  intros Hlen. unfold terminated. apply andb_true_iff. split.
  - apply Z.eqb_eq. rewrite length_app, length_replicate. lia.
  - apply existsb_exists. exists NUL. split; [|reflexivity].
    apply in_or_app. right. cbn [replicate]. left. reflexivity.
Qed.

(** After [read_serial] the buffer has its size and holds a C string. *)
Lemma read_serial_terminated (id : PortId) (d d' : Device) (buffer buffer' : list ascii)
    (full : bool) :
  Z.of_nat (length buffer) = MESSAGE_BUFFER_SIZE ->
  read_serial id d buffer = Done (d', buffer', full) ->
  terminated buffer' = true.
Proof.
  intros Hlen Hrun.
  pose proof MESSAGE_BUFFER_SIZE_eq as Hsize.
  destruct (read_serial_runs id d buffer Hlen) as (d1 & Heq & _).
  pose proof room_eq as Hroom.
  remember (Z.to_nat (MESSAGE_BUFFER_SIZE - 1)) as r eqn:Hr.
  rewrite Heq in Hrun. injection Hrun as _ <- _.
  assert (Hkept : (length (take r (offered id d)) <= r)%nat) by (rewrite length_take; lia).
  replace (S r - length (take r (offered id d)))%nat
    with (S (r - length (take r (offered id d)))) by lia.
  apply terminated_fill. lia.
Qed.

Lemma read_serial_loop_trace (fuel : nat) :
  forall (id : PortId) (d : Device) (buffer : list ascii) (buff_pos : Z)
         (d' : Device) (buffer' : list ascii) (buff_pos' : Z) (full' : bool),
    read_serial_loop fuel id d buffer buff_pos false = Done (d', buffer', buff_pos', full') ->
    trace d' = trace d ++ (if full' then [SerialPrintln (nl +:+ "Buffer full")] else []).
Proof.
  induction fuel as [|fuel IH]; intros id d buffer buff_pos d' buffer' buff_pos' full' Hrun.
  - discriminate.
  - rewrite read_serial_loop_S in Hrun.
    destruct ((0 <? available (port id d)) && negb false).
    + destruct (ss_read (port id d)) as [v p]. cbv zeta in Hrun.
      destruct (set_port_frame id p d) as (_ & _ & Htr & _).
      destruct (buff_pos =? MESSAGE_BUFFER_SIZE - 1).
      * injection Hrun as <- _ _ <-. simpl. rewrite Htr. reflexivity.
      * destruct (store buffer buff_pos (to_uchar v)) as [buffer1| |]; try discriminate.
        rewrite bind_Done in Hrun. apply IH in Hrun.
        simpl in Hrun. rewrite Htr in Hrun. exact Hrun.
    + injection Hrun as <- _ _ <-. rewrite app_nil_r. reflexivity.
Qed.

Lemma read_serial_trace (id : PortId) (d d' : Device) (buffer buffer' : list ascii)
    (full : bool) :
  read_serial id d buffer = Done (d', buffer', full) ->
  trace d' = trace d ++ (if full then [SerialPrintln (nl +:+ "Buffer full")] else []).
Proof.
  unfold read_serial. intros Hrun.
  destruct (memset buffer NUL MESSAGE_BUFFER_SIZE) as [b0| |]; try discriminate.
  rewrite bind_Done in Hrun.
  destruct (read_serial_loop _ id d b0 0 false) as [[[[d1 b1] pos] f]| |] eqn:Hloop;
    try discriminate.
  rewrite bind_Done in Hrun.
  destruct (store b1 pos NUL) as [b2| |]; try discriminate.
  injection Hrun as <- _ <-.
  exact (read_serial_loop_trace _ _ _ _ _ _ _ _ _ Hloop).
Qed.

(** C3.  A source that offers at least [MESSAGE_BUFFER_SIZE] (4097) bytes in
    one read cycle: [read_serial] returns (so no write fell outside the
    buffer, see [store]), the buffer holds exactly the first
    [MESSAGE_BUFFER_SIZE - 1] bytes offered followed by the terminating NUL
    in its last cell, [bufferfull] is raised and "Buffer full" is printed. *)
Theorem read_serial_overflow (id : PortId) (d : Device) (buffer : list ascii) :
  Z.of_nat (length buffer) = MESSAGE_BUFFER_SIZE ->
  MESSAGE_BUFFER_SIZE <= Z.of_nat (length (offered id d)) ->
  exists d' buffer',
    read_serial id d buffer = Done (d', buffer', true) /\
    buffer' = take (Z.to_nat (MESSAGE_BUFFER_SIZE - 1)) (offered id d) ++ [NUL] /\
    Z.of_nat (length buffer') = MESSAGE_BUFFER_SIZE /\
    trace d' = trace d ++ [SerialPrintln (nl +:+ "Buffer full")].
Proof.
  intros Hlen Hmany.
  pose proof MESSAGE_BUFFER_SIZE_eq as Hsize.
  destruct (read_serial_runs id d buffer Hlen) as (d' & Hrun & _).
  pose proof room_eq as Hroom.
  pose proof (drain_length (Z.to_nat MESSAGE_BUFFER_SIZE) id d) as Hmax.
  fold (offered id d) in Hmax.
  remember (Z.to_nat (MESSAGE_BUFFER_SIZE - 1)) as r eqn:Hr.
  assert (Hall : length (offered id d) = S r) by lia.
  rewrite bool_decide_eq_true_2 in Hrun by assumption.
  assert (Hkept : length (take r (offered id d)) = r) by (rewrite length_take; lia).
  rewrite Hkept in Hrun.
  replace (S r - r)%nat with 1%nat in Hrun by lia.
  exists d', (take r (offered id d) ++ [NUL]).
  split; [exact Hrun|]. split; [reflexivity|]. split.
  - rewrite length_app, Hkept. cbn [length]. lia.
  - exact (read_serial_trace _ _ _ _ _ _ Hrun).
Qed.

Lemma read_serial_overflow_witness :
  exists d' buffer',
    read_serial GSM (receiving GSM (replicate 5000 "a"%char) 0) (replicate 4097 "x"%char)
    = Done (d', buffer', true) /\
    buffer' = take (Z.to_nat (MESSAGE_BUFFER_SIZE - 1))
                   (offered GSM (receiving GSM (replicate 5000 "a"%char) 0)) ++ [NUL] /\
    Z.of_nat (length buffer') = MESSAGE_BUFFER_SIZE /\
    trace d' = trace (receiving GSM (replicate 5000 "a"%char) 0)
               ++ [SerialPrintln (nl +:+ "Buffer full")].
Proof.
  apply read_serial_overflow.
  - vm_compute. reflexivity.
  - vm_compute. discriminate.
Defined.

(** C4.  A source that offers fewer than [MESSAGE_BUFFER_SIZE] bytes in one
    read cycle: [read_serial] returns, and the buffer then holds exactly the
    bytes offered, in their order, and NUL in every cell after them,
    whatever the buffer held before the call. *)
Theorem read_serial_exact (id : PortId) (d : Device) (buffer : list ascii) :
  Z.of_nat (length buffer) = MESSAGE_BUFFER_SIZE ->
  Z.of_nat (length (offered id d)) < MESSAGE_BUFFER_SIZE ->
  exists d',
    read_serial id d buffer
    = Done (d',
            offered id d
            ++ replicate (Z.to_nat MESSAGE_BUFFER_SIZE - length (offered id d)) NUL,
            false).
Proof.
  intros Hlen Hfew.
  pose proof MESSAGE_BUFFER_SIZE_eq as Hsize.
  destruct (read_serial_runs id d buffer Hlen) as (d' & Hrun & _).
  pose proof room_eq as Hroom.
  remember (Z.to_nat (MESSAGE_BUFFER_SIZE - 1)) as r eqn:Hr.
  rewrite bool_decide_eq_false_2 in Hrun by lia.
  rewrite take_ge in Hrun by lia.
  rewrite <- Hroom in Hrun.
  exists d'. exact Hrun.
Qed.

Lemma read_serial_exact_witness :
  exists d',
    read_serial GPS (receiving GPS (list_ascii_of_string "$GPGGA") 0)
                (replicate 4097 "x"%char)
    = Done (d',
            offered GPS (receiving GPS (list_ascii_of_string "$GPGGA") 0)
            ++ replicate (Z.to_nat MESSAGE_BUFFER_SIZE
                          - length (offered GPS (receiving GPS (list_ascii_of_string "$GPGGA") 0)))
                         NUL,
            false).
Proof.
  apply read_serial_exact.
  - vm_compute. reflexivity.
  - vm_compute. reflexivity.
Defined.

(** ** The wait loop of sendATcommand *)

(** C1, as the code has it.  The wait loop is left after a pass exactly when
    the elapsed time has reached the timeout AND the fill-buffer flag is
    false: the guard that keeps the loop going is the disjunction
    [elapsed < _timeout || ASSERT_BUFFER].  Each pass of [wait_loop] either
    returns the device it reached or goes round again, by this guard. *)
Theorem wait_loop_exit_guard (poll : Z) (fuel : nat) (softSerial : PortId) (d : Device)
    (send_time _timeout : Z) (ASSERT_BUFFER : bool) :
  (forall e : Z,
      keep_waiting e _timeout ASSERT_BUFFER = false
      <-> (_timeout <= e /\ ASSERT_BUFFER = false)) /\
  wait_loop poll (S fuel) softSerial d send_time _timeout ASSERT_BUFFER
  = (d1 ← capture softSerial d;
     if keep_waiting (elapsed (elapse poll d1) send_time) _timeout ASSERT_BUFFER
     then wait_loop poll fuel softSerial (elapse poll d1) send_time _timeout ASSERT_BUFFER
     else Done (elapse poll d1)).
Proof.
  split; [|reflexivity].
  intros e. unfold keep_waiting. rewrite orb_false_iff, Z.ltb_ge. reflexivity.
Qed.

(** C1, as the claim states it, fails: 0 ms after a command with the default
    timeout of 4000 ms and the flag false, the claimed exit condition holds
    but the loop goes on. *)
Lemma wait_loop_exit_not_disjunction :
  ~ (keep_waiting 0 4000 false = false <-> (4000 <= 0 \/ false = false)).
Proof.
  intros [_ H]. specialize (H (or_intror eq_refl)). discriminate H.
Qed.

Lemma elapsed_eq (d : Device) (t0 : Z) :
  0 <= now d - t0 < 2 ^ 32 ->
  elapsed d (t0 mod 2 ^ 32) = now d - t0.
Proof.
  intros Hrange. unfold elapsed, millis.
  rewrite <- Zminus_mod. apply Z.mod_small. exact Hrange.
Qed.

(** One pass of the loop body: it always returns on a well-formed buffer,
    keeps the buffer well formed, sends nothing to the modem and takes at
    most 2 ms for each byte of a full buffer. *)
Lemma capture_runs (id : PortId) (d : Device) :
  terminated (msgStream d) = true ->
  exists d1,
    capture id d = Done d1 /\
    terminated (msgStream d1) = true /\
    exchanges (trace d1) = exchanges (trace d) /\
    now d <= now d1 <= now d + 2 * (MESSAGE_BUFFER_SIZE - 1).
Proof.
  intros Hterm. unfold capture.
  pose proof MESSAGE_BUFFER_SIZE_eq as Hsize.
  destruct (negb (available (port id d) =? 0)).
  - assert (Hlen : Z.of_nat (length (msgStream d)) = MESSAGE_BUFFER_SIZE).
    { unfold terminated in Hterm. apply andb_true_iff in Hterm as [Hlen _].
      apply Z.eqb_eq in Hlen. exact Hlen. }
    destruct (read_serial_runs id d (msgStream d) Hlen) as (d' & Hrun & Hmsg & Hex & Hnow).
    pose proof (read_serial_terminated _ _ _ _ _ _ Hlen Hrun) as Hterm'.
    rewrite Hrun, bind_Done.
    eexists. split; [reflexivity|].
    repeat split; simpl; try assumption; lia.
  - exists d. repeat split; try assumption; lia.
Qed.

(** With the flag false the loop ends at the first evaluation of the guard
    at which the timeout has been reached. *)
Lemma wait_loop_timeout (poll _timeout t0 : Z) (id : PortId) :
  0 < poll ->
  _timeout + pass_max poll < 2 ^ 32 ->
  forall (fuel : nat) (d : Device),
    terminated (msgStream d) = true ->
    0 <= now d - t0 <= _timeout ->
    _timeout - (now d - t0) < Z.of_nat fuel ->
    exists d',
      wait_loop poll fuel id d (t0 mod 2 ^ 32) _timeout false = Done d' /\
      terminated (msgStream d') = true /\
      exchanges (trace d') = exchanges (trace d) /\
      _timeout <= now d' - t0 <= _timeout + pass_max poll.
Proof.
  intros Hpoll Hwrap.
  pose proof MESSAGE_BUFFER_SIZE_eq as Hsize.
  unfold pass_max in *.
  induction fuel as [|fuel IH]; intros d Hterm Hsofar Hfuel; [lia|].
  cbn [wait_loop].
  destruct (capture_runs id d Hterm) as (d1 & Hcap & Hterm1 & Hex1 & Hnow1).
  rewrite Hcap, bind_Done. cbv zeta.
  set (d2 := elapse poll d1).
  assert (Hnow2 : now d2 = now d1 + poll) by reflexivity.
  assert (Hterm2 : terminated (msgStream d2) = true) by exact Hterm1.
  assert (Hex2 : exchanges (trace d2) = exchanges (trace d)) by exact Hex1.
  rewrite elapsed_eq by lia.
  unfold keep_waiting. rewrite orb_false_r.
  destruct (now d2 - t0 <? _timeout) eqn:Hlt.
  - apply Z.ltb_lt in Hlt.
    destruct (IH d2 Hterm2) as (d' & Hrun & Hterm' & Hex' & Hnow'); [lia | lia |].
    exists d'. repeat split; try assumption; try lia. congruence.
  - apply Z.ltb_ge in Hlt.
    exists d2. repeat split; try assumption; lia.
Qed.

(** With the flag true the guard never fails: the loop has no exit. *)
Lemma wait_loop_fill (poll send_time _timeout : Z) (id : PortId) (fuel : nat) :
  forall d : Device,
    terminated (msgStream d) = true ->
    wait_loop poll fuel id d send_time _timeout true = Spin.
Proof.
  induction fuel as [|fuel IH]; intros d Hterm; [reflexivity|].
  cbn [wait_loop].
  destruct (capture_runs id d Hterm) as (d1 & Hcap & Hterm1 & _).
  rewrite Hcap, bind_Done. cbv zeta.
  unfold keep_waiting. rewrite orb_true_r.
  apply IH. exact Hterm1.
Qed.

(** A port on which nothing is pending and nothing will arrive stays so. *)
Lemma deliver_idle (t : Z) : deliver t idle_port = idle_port.
Proof. reflexivity. Qed.

Lemma port_elapse (id : PortId) (ms : Z) (d : Device) :
  port id (elapse ms d) = deliver (now d + ms) (port id d).
Proof. destruct id; reflexivity. Qed.

Lemma capture_idle (id : PortId) (d : Device) :
  port id d = idle_port -> capture id d = Done d.
Proof. intros Hidle. unfold capture. rewrite Hidle. reflexivity. Qed.

(** While the modem is silent every pass takes [poll] ms and the buffer is
    not touched. *)
Lemma wait_loop_silent (poll _timeout t0 : Z) (id : PortId) :
  0 < poll ->
  _timeout + poll < 2 ^ 32 ->
  forall (fuel : nat) (d : Device),
    port id d = idle_port ->
    0 <= now d - t0 <= _timeout ->
    _timeout - (now d - t0) < Z.of_nat fuel ->
    exists d',
      wait_loop poll fuel id d (t0 mod 2 ^ 32) _timeout false = Done d' /\
      msgStream d' = msgStream d /\
      _timeout <= now d' - t0 <= _timeout + poll.
Proof.
  intros Hpoll Hwrap.
  induction fuel as [|fuel IH]; intros d Hidle Hsofar Hfuel; [lia|].
  cbn [wait_loop].
  rewrite (capture_idle id d Hidle), bind_Done. cbv zeta.
  set (d2 := elapse poll d).
  assert (Hnow2 : now d2 = now d + poll) by reflexivity.
  assert (Hidle2 : port id d2 = idle_port).
  { subst d2. rewrite port_elapse, Hidle. apply deliver_idle. }
  rewrite elapsed_eq by lia.
  unfold keep_waiting. rewrite orb_false_r.
  destruct (now d2 - t0 <? _timeout) eqn:Hlt.
  - apply Z.ltb_lt in Hlt.
    destruct (IH d2 Hidle2) as (d' & Hrun & Hmsg & Hnow'); [lia | lia |].
    exists d'. split; [exact Hrun|]. split; [exact Hmsg | lia].
  - apply Z.ltb_ge in Hlt. exists d2. split; [reflexivity|]. split; [reflexivity | lia].
Qed.

Lemma exchanges_writes (s : list ascii) : exchanges (List.map SerialWrite s) = [].
Proof. induction s as [|c s IH]; simpl; [reflexivity | exact IH]. Qed.

Lemma echo_trace (s : list ascii) :
  forall d : Device,
    now (echo s d) = now d /\
    msgStream (echo s d) = msgStream d /\
    trace (echo s d) = trace d ++ List.map SerialWrite s.
Proof.
  unfold echo.
  induction s as [|c s IH]; intros d; simpl.
  - rewrite app_nil_r. repeat split.
  - destruct (IH (emit (SerialWrite c) d)) as (H1 & H2 & H3).
    rewrite H1, H2, H3. simpl. rewrite <- app_assoc.
    repeat split.
Qed.

Lemma echo_frame (s : list ascii) (d : Device) :
  now (echo s d) = now d /\
  msgStream (echo s d) = msgStream d /\
  exchanges (trace (echo s d)) = exchanges (trace d).
Proof.
  destruct (echo_trace s d) as (H1 & H2 & H3).
  rewrite H3, exchanges_app, exchanges_writes, app_nil_r.
  repeat split; assumption.
Qed.

Lemma cleanSerial_frame (id : PortId) (d : Device) :
  now (cleanSerial id d) = now d /\
  msgStream (cleanSerial id d) = msgStream d /\
  trace (cleanSerial id d) = trace d.
Proof. unfold cleanSerial. destruct id; repeat split. Qed.

Lemma discard_nil (l : list ascii) : discard l = [].
Proof. induction l as [|c l IH]; simpl; [reflexivity | exact IH]. Qed.

(** After the flush nothing is left in the port's receive buffer. *)
Lemma cleanSerial_rx (id : PortId) (d : Device) :
  port id (cleanSerial id d) = {| rx := []; wire := wire (port id d) |}.
Proof.
  unfold cleanSerial. rewrite port_set_port, discard_nil.
  destruct id; reflexivity.
Qed.

Lemma elapse_buffered (id : PortId) (ms : Z) (l : list ascii) (d : Device) :
  port id d = {| rx := l; wire := [] |} ->
  port id (elapse ms d) = {| rx := l; wire := [] |}.
Proof.
  intros Hport. rewrite port_elapse, Hport. unfold deliver. simpl.
  rewrite app_nil_r. reflexivity.
Qed.

(** A port that holds [l] and has nothing more coming hands over [l]. *)
Lemma drain_buffered (n : nat) :
  forall (id : PortId) (l : list ascii) (d : Device),
    port id d = {| rx := l; wire := [] |} ->
    drain n id d = take n l.
Proof.
  induction n as [|n IH]; intros id l d Hport; [reflexivity|].
  rewrite drain_S, Hport. unfold available, ss_read.
  destruct l as [|c l]; simpl; [reflexivity|].
  rewrite to_uchar_of_ascii. f_equal.
  apply IH. apply elapse_buffered. apply port_set_port.
Qed.

Lemma offered_buffered (id : PortId) (l : list ascii) (d : Device) :
  port id d = {| rx := l; wire := [] |} ->
  Z.of_nat (length l) <= MESSAGE_BUFFER_SIZE ->
  offered id d = l.
Proof.
  intros Hport Hlen. unfold offered.
  rewrite (drain_buffered _ id l d Hport).
  apply take_ge. lia.
Qed.

(** ** sendATcommand as a whole *)

(** An exchange with the fill-buffer flag false runs to its end when the
    timeout leaves room for one pass before the 32-bit clock difference
    wraps: the command goes out once, the loop is left between [_timeout]
    and [_timeout + pass_max poll] ms after the send, and the content of
    the buffer at that moment is published. *)
Lemma sendATcommand_runs (poll : Z) (String_bool : string -> bool) (CMD : string)
    (_timeout : Z) (d : Device) (fuel : nat) :
  0 < poll ->
  0 <= _timeout ->
  _timeout + pass_max poll < 2 ^ 32 ->
  terminated (msgStream d) = true ->
  _timeout < Z.of_nat fuel ->
  exists d' log,
    sendATcommand poll String_bool fuel GSM CMD _timeout false d = Done d' /\
    _timeout <= now d' - now d <= _timeout + pass_max poll /\
    exchanges (trace d') = exchanges (trace d) ++ [CMD] /\
    terminated (msgStream d') = true /\
    c_str (msgStream d') = Done log /\
    last (trace d') = Some (ServerSend 200 "text/html" (SendHTML String_bool (logs_body log))).
Proof.
  intros Hpoll Ht Hwrap Hterm Hfuel.
  unfold sendATcommand.
  set (d0 := emit (PortPrintln GSM CMD) (cleanSerial GSM (emit (SerialPrintln "*********") d))).
  assert (Hnow0 : now d0 = now d) by reflexivity.
  assert (Hmsg0 : msgStream d0 = msgStream d) by reflexivity.
  assert (Hex0 : exchanges (trace d0) = exchanges (trace d) ++ [CMD]).
  { change (trace d0)
      with ((trace d ++ [SerialPrintln "*********"]) ++ [PortPrintln GSM CMD]).
    rewrite !exchanges_app. simpl. rewrite app_nil_r. reflexivity. }
  unfold millis. rewrite Hnow0.
  destruct (wait_loop_timeout poll _timeout (now d) GSM Hpoll Hwrap fuel d0)
    as (d1 & Hrun & Hterm1 & Hex1 & Hnow1); [congruence | lia | lia |].
  rewrite Hrun, bind_Done.
  destruct (terminated_c_str _ Hterm1) as (log & Hlog).
  rewrite Hlog, bind_Done.
  destruct (echo_frame log d1) as (He1 & He2 & He4).
  unfold display_logs. rewrite He2, Hlog, bind_Done.
  eexists. exists log. split; [reflexivity|].
  simpl. rewrite He1, He2, exchanges_app, He4, Hex1, Hex0. simpl.
  rewrite app_nil_r, last_snoc.
  repeat split; try assumption; lia.
Qed.

(** While the modem is silent the exchange is over at most one poll after
    the timeout, and the buffer holds what it held before the exchange:
    [sendATcommand] does not clear it. *)
Lemma sendATcommand_silent (poll : Z) (String_bool : string -> bool) (CMD : string)
    (_timeout : Z) (d d' : Device) (fuel : nat) :
  0 < poll ->
  0 <= _timeout ->
  _timeout + poll < 2 ^ 32 ->
  wire (GSM_Serial d) = [] ->
  _timeout < Z.of_nat fuel ->
  sendATcommand poll String_bool fuel GSM CMD _timeout false d = Done d' ->
  now d' - now d <= _timeout + poll /\ msgStream d' = msgStream d.
Proof.
  intros Hpoll Ht Hwrap Hwire Hfuel.
  unfold sendATcommand.
  set (d0 := emit (PortPrintln GSM CMD) (cleanSerial GSM (emit (SerialPrintln "*********") d))).
  assert (Hnow0 : now d0 = now d) by reflexivity.
  assert (Hidle : port GSM d0 = idle_port).
  { change (port GSM d0) with (port GSM (cleanSerial GSM (emit (SerialPrintln "*********") d))).
    rewrite cleanSerial_rx. simpl. rewrite Hwire. reflexivity. }
  unfold millis. rewrite Hnow0.
  destruct (wait_loop_silent poll _timeout (now d) GSM Hpoll Hwrap fuel d0)
    as (d1 & Hrun & Hmsg1 & Hnow1); [assumption | lia | lia |].
  rewrite Hrun, bind_Done.
  destruct (c_str (msgStream d1)) as [log| |] eqn:Hlog; try discriminate.
  rewrite bind_Done.
  destruct (echo_frame log d1) as (He1 & He2 & _).
  unfold display_logs. rewrite He2, Hlog, bind_Done.
  intros [= <-]. simpl. rewrite He1, He2. split; [lia | exact Hmsg1].
Qed.

(** ** PUT_REQUEST *)

(** An upload is two exchanges, the length declaration and then the
    payload, and it runs to its end. *)
Lemma PUT_REQUEST_runs (poll : Z) (String_bool : string -> bool) (data : string)
    (d : Device) (fuel : nat) :
  0 < poll ->
  default_timeout + pass_max poll < 2 ^ 32 ->
  terminated (msgStream d) = true ->
  default_timeout < Z.of_nat fuel ->
  exists d',
    PUT_REQUEST poll String_bool fuel data d = Done d' /\
    exchanges (trace d') = exchanges (trace d) ++ upload data /\
    terminated (msgStream d') = true.
Proof.
  intros Hpoll Hwrap Hterm Hfuel.
  assert (Ht : 0 <= default_timeout) by (unfold default_timeout; lia).
  unfold PUT_REQUEST, default_fill_buffer.
  set (HTTPCFG := "AT+QHTTPPUT=" +:+ String_of_uint (String_length data) +:+ ",30,60").
  set (d0 := emit (SerialPrintln data) (emit (SerialPrintln HTTPCFG) d)).
  assert (Hex0 : exchanges (trace d0) = exchanges (trace d)).
  { subst d0. simpl. rewrite !exchanges_app. simpl. rewrite !app_nil_r. reflexivity. }
  destruct (sendATcommand_runs poll String_bool HTTPCFG default_timeout d0 fuel)
    as (d1 & log1 & Hrun1 & _ & Hex1 & Hterm1 & _); try assumption.
  rewrite Hrun1, bind_Done.
  destruct (sendATcommand_runs poll String_bool data default_timeout d1 fuel)
    as (d2 & log2 & Hrun2 & _ & Hex2 & Hterm2 & _); try assumption.
  exists d2. split; [exact Hrun2|]. split; [|exact Hterm2].
  rewrite Hex2, Hex1, Hex0, <- app_assoc. reflexivity.
Qed.

(** ** gps_encode *)

Section Tracking.

Variable poll : Z.
Variable String_double : float -> Z -> string.
Variable String_bool : string -> bool.
Variable G : Type.
Variable encode : G -> ascii -> G.
Variable isValid : G -> bool.
Variable lat : G -> float.
Variable lng : G -> float.

Local Abbreviation gps_encode' := (gps_encode poll String_double String_bool encode isValid lat lng).

(** What a completed call does to the decoder and to the tracker's globals. *)
Lemma gps_encode_trk (fuel : nat) (w w' : World G) :
  gps_encode' fuel w = Done w' ->
  exists frame,
    c_str (msgStream (dev w)) = Done frame /\
    gps w' = decode encode frame (gps w) /\
    trk w' = track isValid lat lng (decode encode frame (gps w)) (trk w).
Proof.
  unfold gps_encode, track, located. intros Hrun.
  destruct (c_str (msgStream (dev w))) as [frame| |]; try discriminate.
  rewrite bind_Done in Hrun. exists frame. split; [reflexivity|].
  destruct (isValid (decode encode frame (gps w)));
    match type of Hrun with context [changed ?t] => destruct (changed t) end;
    try (match type of Hrun with
         | context [PUT_REQUEST ?p ?b ?f ?s ?d] => destruct (PUT_REQUEST p b f s d)
         end; try discriminate; rewrite bind_Done in Hrun);
    injection Hrun as <-; split; reflexivity.
Qed.

(** A call on a well-formed buffer runs to its end; it uploads exactly when
    the position it holds after decoding differs from the one last sent. *)
Lemma gps_encode_runs (fuel : nat) (w : World G) :
  0 < poll ->
  default_timeout + pass_max poll < 2 ^ 32 ->
  terminated (msgStream (dev w)) = true ->
  default_timeout < Z.of_nat fuel ->
  exists frame w',
    c_str (msgStream (dev w)) = Done frame /\
    gps_encode' fuel w = Done w' /\
    gps w' = decode encode frame (gps w) /\
    trk w' = track isValid lat lng (gps w') (trk w) /\
    exchanges (trace (dev w'))
    = exchanges (trace (dev w))
      ++ (if changed (located isValid lat lng (gps w') (trk w))
          then upload (gps_update String_double (trk w')) else []) /\
    terminated (msgStream (dev w')) = true.
Proof.
  intros Hpoll Hwrap Hterm Hfuel.
  destruct (terminated_c_str _ Hterm) as (frame & Hframe).
  exists frame.
  unfold gps_encode, track, located. rewrite Hframe, bind_Done.
  destruct (echo_frame frame (dev w)) as (_ & Hmsg & Hex).
  set (g := decode encode frame (gps w)).
  destruct (isValid g) eqn:Hvalid.
  - set (t1 := set_current (lat g) (lng g) (trk w)).
    destruct (changed t1) eqn:Hch.
    + match goal with
      | |- context [PUT_REQUEST ?p ?b ?f ?s ?d] =>
          destruct (PUT_REQUEST_runs p b s d f) as (d' & Hput & Hex' & Hterm');
            try assumption
      end.
      { simpl. rewrite Hmsg. exact Hterm. }
      rewrite Hput, bind_Done. eexists. split; [reflexivity|]. split; [reflexivity|].
      simpl. rewrite Hvalid. fold t1. rewrite Hch.
      repeat split; try assumption.
      rewrite Hex'. simpl. rewrite !exchanges_app. simpl. rewrite !app_nil_r, Hex.
      reflexivity.
    + eexists. split; [reflexivity|]. split; [reflexivity|].
      simpl. rewrite Hvalid. fold t1. rewrite Hch.
      repeat split.
      * rewrite !exchanges_app. simpl. rewrite !app_nil_r. exact Hex.
      * rewrite Hmsg. exact Hterm.
  - destruct (changed (trk w)) eqn:Hch.
    + match goal with
      | |- context [PUT_REQUEST ?p ?b ?f ?s ?d] =>
          destruct (PUT_REQUEST_runs p b s d f) as (d' & Hput & Hex' & Hterm');
            try assumption
      end.
      { simpl. rewrite Hmsg. exact Hterm. }
      rewrite Hput, bind_Done. eexists. split; [reflexivity|]. split; [reflexivity|].
      simpl. rewrite Hvalid, Hch.
      repeat split; try assumption.
      rewrite Hex'. simpl. rewrite !exchanges_app. simpl. rewrite !app_nil_r, Hex.
      reflexivity.
    + eexists. split; [reflexivity|]. split; [reflexivity|].
      simpl. rewrite Hvalid, Hch.
      repeat split.
      * rewrite app_nil_r. exact Hex.
      * rewrite Hmsg. exact Hterm.
Qed.

(** *** Comparison of doubles *)

Lemma SFeqb_sym (f1 f2 : spec_float) : SFeqb f1 f2 = SFeqb f2 f1.
Proof.
  unfold SFeqb, SFcompare.
  destruct f1 as [s1|s1| |s1 m1 e1], f2 as [s2|s2| |s2 m2 e2];
    try reflexivity;
    try (destruct s1; reflexivity); try (destruct s2; reflexivity);
    try (destruct s1, s2; reflexivity).
  assert (Hm : Pos.compare_cont Eq m2 m1 = CompOpp (Pos.compare_cont Eq m1 m2))
    by (symmetry; apply (Pos.compare_cont_antisym m1 m2 Eq)).
  destruct s1, s2; try reflexivity;
    rewrite (Z.compare_antisym e1 e2); destruct (e1 ?= e2)%Z; simpl; try reflexivity;
    rewrite Hm; destruct (Pos.compare_cont Eq m1 m2); reflexivity.
Qed.

Lemma float_eqb_sym (x y : float) : (x =? y)%float = (y =? x)%float.
Proof. rewrite !FloatAxioms.eqb_spec. apply SFeqb_sym. Qed.

Lemma SFeqb_trans (f1 f2 f3 : spec_float) :
  SFeqb f1 f2 = true -> SFeqb f2 f3 = true -> SFeqb f1 f3 = true.
Proof.
  unfold SFeqb, SFcompare.
  destruct f1 as [s1|s1| |s1 m1 e1], f2 as [s2|s2| |s2 m2 e2], f3 as [s3|s3| |s3 m3 e3];
    try reflexivity; try discriminate;
    try (destruct s1; discriminate); try (destruct s2; discriminate);
    try (destruct s1, s2, s3; (reflexivity || discriminate)).
  destruct s1, s2; try discriminate; destruct s3; try discriminate;
    destruct (e1 ?= e2)%Z eqn:He12; try discriminate;
    destruct (e2 ?= e3)%Z eqn:He23; try discriminate;
    apply Z.compare_eq in He12, He23; subst e2 e3; rewrite Z.compare_refl;
    destruct (Pos.compare_cont Eq m1 m2) eqn:Hm12; try discriminate;
    destruct (Pos.compare_cont Eq m2 m3) eqn:Hm23; try discriminate;
    apply Pos.compare_eq in Hm12, Hm23; subst m2 m3;
    intros _ _; change (Pos.compare_cont Eq m1 m1) with (m1 ?= m1)%positive;
    rewrite Pos.compare_refl; reflexivity.
Qed.

(** [==] on doubles is transitive. *)
Lemma float_eqb_trans (x y z : float) :
  (x =? y)%float = true -> (y =? z)%float = true -> (x =? z)%float = true.
Proof. rewrite !FloatAxioms.eqb_spec. apply SFeqb_trans. Qed.

Lemma float_ltb_neq (x y : float) : (x <? y)%float = true -> (x =? y)%float = false.
Proof.
  rewrite FloatAxioms.ltb_spec, FloatAxioms.eqb_spec. unfold SFltb, SFeqb.
  destruct (SFcompare (Prim2SF x) (Prim2SF y)) as [[| |]|]; intros H;
    try discriminate H; reflexivity.
Qed.

(** Doubles one unit in the last place apart compare unequal. *)
Lemma one_ulp_apart_fne (x y : float) : one_ulp_apart x y -> fne x y = true.
Proof.
  unfold fne. intros [[_ Hlt]|[_ Hlt]]; apply negb_true_iff.
  - exact (float_ltb_neq x y Hlt).
  - rewrite float_eqb_sym. exact (float_ltb_neq y x Hlt).
Qed.

(** *** The tracker's globals after a step *)

Lemma track_current (g : G) (t : Tracker) :
  _lat (track isValid lat lng g t) = _lat (located isValid lat lng g t) /\
  _long (track isValid lat lng g t) = _long (located isValid lat lng g t).
Proof. unfold track. destruct (changed _); split; reflexivity. Qed.

Lemma track_updated (g : G) (t : Tracker) :
  isLocationUpdated (track isValid lat lng g t) = changed (located isValid lat lng g t).
Proof. unfold track. destruct (changed _) eqn:H; reflexivity. Qed.

Lemma located_reported (g : G) (t : Tracker) :
  _newLat (located isValid lat lng g t) = _newLat t /\
  _newLong (located isValid lat lng g t) = _newLong t.
Proof. unfold located. destruct (isValid g); split; reflexivity. Qed.

Lemma changed_iff (t : Tracker) :
  changed t = true
  <-> ((_lat t =? _newLat t)%float = false \/ (_long t =? _newLong t)%float = false).
Proof.
  unfold changed, fne. rewrite orb_true_iff, !negb_true_iff. reflexivity.
Qed.

(** C2.  A step of the tracker on a well-formed buffer runs to its end.
    With the current position as it stands after the decoder has been
    consulted ([located]), [isLocationUpdated] is true afterwards if and
    only if the current latitude or the current longitude compares unequal,
    as doubles and with no tolerance, to the one last reported; in
    particular it is true when either pair is one unit in the last place
    apart. *)
Theorem gps_encode_updated_iff (fuel : nat) (w : World G) :
  0 < poll ->
  default_timeout + pass_max poll < 2 ^ 32 ->
  terminated (msgStream (dev w)) = true ->
  default_timeout < Z.of_nat fuel ->
  exists frame w',
    c_str (msgStream (dev w)) = Done frame /\
    gps_encode' fuel w = Done w' /\
    let current := located isValid lat lng (decode encode frame (gps w)) (trk w) in
    _lat (trk w') = _lat current /\
    _long (trk w') = _long current /\
    (isLocationUpdated (trk w') = true
     <-> ((_lat current =? _newLat (trk w))%float = false \/
          (_long current =? _newLong (trk w))%float = false)) /\
    (one_ulp_apart (_lat current) (_newLat (trk w)) \/
     one_ulp_apart (_long current) (_newLong (trk w)) ->
     isLocationUpdated (trk w') = true).
Proof.
  intros Hpoll Hwrap Hterm Hfuel.
  destruct (gps_encode_runs fuel w Hpoll Hwrap Hterm Hfuel)
    as (frame & w' & Hframe & Hrun & Hg & Htrk & _).
  exists frame, w'. split; [exact Hframe|]. split; [exact Hrun|].
  cbv zeta. rewrite Htrk, Hg.
  set (g := decode encode frame (gps w)).
  destruct (track_current g (trk w)) as [Hla Hlo].
  destruct (located_reported g (trk w)) as [Hnla Hnlo].
  assert (Hiff : isLocationUpdated (track isValid lat lng g (trk w)) = true
                 <-> ((_lat (located isValid lat lng g (trk w)) =? _newLat (trk w))%float = false \/
                      (_long (located isValid lat lng g (trk w)) =? _newLong (trk w))%float = false)).
  { rewrite track_updated, changed_iff, Hnla, Hnlo. reflexivity. }
  split; [exact Hla|]. split; [exact Hlo|]. split; [exact Hiff|].
  intros Hulp. apply Hiff.
  destruct Hulp as [H|H]; apply one_ulp_apart_fne in H; unfold fne in H;
    apply negb_true_iff in H; [left | right]; exact H.
Qed.

(** *** Steps that do not upload *)

(** When the position held after decoding compares equal to the one last
    reported, the step returns whatever the fuel and sends nothing. *)
Lemma gps_encode_unchanged (fuel : nat) (w : World G) (frame : list ascii) :
  c_str (msgStream (dev w)) = Done frame ->
  changed (located isValid lat lng (decode encode frame (gps w)) (trk w)) = false ->
  exists w',
    gps_encode' fuel w = Done w' /\
    gps w' = decode encode frame (gps w) /\
    trk w' = retain (located isValid lat lng (decode encode frame (gps w)) (trk w)) /\
    exchanges (trace (dev w')) = exchanges (trace (dev w)).
Proof.
  intros Hframe Hsame.
  unfold gps_encode. rewrite Hframe, bind_Done.
  destruct (echo_frame frame (dev w)) as (_ & _ & Hex).
  unfold located in *.
  destruct (isValid (decode encode frame (gps w))); rewrite Hsame.
  - eexists. split; [reflexivity|]. repeat split.
    simpl. rewrite !exchanges_app. simpl. rewrite !app_nil_r. exact Hex.
  - eexists. split; [reflexivity|]. repeat split. exact Hex.
Qed.

Lemma changed_false_iff (t : Tracker) :
  changed t = false
  <-> ((_lat t =? _newLat t)%float = true /\ (_long t =? _newLong t)%float = true).
Proof.
  unfold changed, fne. rewrite orb_false_iff, !negb_false_iff. reflexivity.
Qed.

(** After a step the current position compares equal to the one last
    reported, provided that held before or the decoder had a valid fix. *)
Lemma track_agree (g : G) (t : Tracker) :
  numeric isValid lat lng ->
  (isValid g = false -> changed t = false) ->
  changed (track isValid lat lng g t) = false.
Proof.
  intros Hnum Hbefore. unfold track.
  destruct (changed (located isValid lat lng g t)) eqn:Hch.
  - unfold located in *. destruct (isValid g) eqn:Hvalid.
    + destruct (Hnum g Hvalid) as [Hla Hlo].
      apply changed_false_iff. simpl. split; assumption.
    + rewrite (Hbefore eq_refl) in Hch. discriminate Hch.
  - apply changed_false_iff. apply changed_false_iff in Hch. exact Hch.
Qed.

Lemma reachable_agree (w : World G) :
  numeric isValid lat lng ->
  reachable poll String_double String_bool encode isValid lat lng w ->
  changed (trk w) = false.
Proof.
  intros Hnum Hreach.
  induction Hreach as [d g | w d _ IH | w w' fuel _ IH Hrun].
  - reflexivity.
  - exact IH.
  - destruct (gps_encode_trk fuel w w' Hrun) as (frame & _ & _ & Htrk).
    rewrite Htrk. apply track_agree; [exact Hnum | intros _; exact IH].
Qed.

(** C10.  Starting from the all-zero globals, after every completed call of
    [gps_encode] the current position equals the one last reported,
    [_lat == _newLat] and [_long == _newLong], whichever branch was taken
    and whatever [isLocationUpdated] then says. *)
Theorem gps_encode_agree (fuel : nat) (w w' : World G) :
  numeric isValid lat lng ->
  reachable poll String_double String_bool encode isValid lat lng w ->
  gps_encode' fuel w = Done w' ->
  (_lat (trk w') =? _newLat (trk w'))%float = true /\
  (_long (trk w') =? _newLong (trk w'))%float = true.
Proof.
  intros Hnum Hreach Hrun.
  apply changed_false_iff.
  apply reachable_agree; [exact Hnum|].
  eapply reach_gps_encode; eassumption.
Qed.

(** C8.  A frame after which the decoder reports no valid location: the
    step returns, the current position and the position last reported (the
    baseline of the comparison) are what they were, and no command is sent
    to the modem. *)
Theorem gps_encode_invalid_fix (fuel : nat) (w : World G) (frame : list ascii) :
  numeric isValid lat lng ->
  reachable poll String_double String_bool encode isValid lat lng w ->
  c_str (msgStream (dev w)) = Done frame ->
  isValid (decode encode frame (gps w)) = false ->
  exists w',
    gps_encode' fuel w = Done w' /\
    _lat (trk w') = _lat (trk w) /\
    _long (trk w') = _long (trk w) /\
    _newLat (trk w') = _newLat (trk w) /\
    _newLong (trk w') = _newLong (trk w) /\
    isLocationUpdated (trk w') = false /\
    exchanges (trace (dev w')) = exchanges (trace (dev w)).
Proof.
  intros Hnum Hreach Hframe Hinvalid.
  pose proof (reachable_agree w Hnum Hreach) as Hagree.
  destruct (gps_encode_unchanged fuel w frame Hframe) as (w' & Hrun & _ & Htrk & Hex).
  { unfold located. rewrite Hinvalid. exact Hagree. }
  exists w'. split; [exact Hrun|].
  rewrite Htrk. unfold located. rewrite Hinvalid.
  repeat split. exact Hex.
Qed.

(** C6.  A frame that decodes to a valid fix which differs from the one last
    reported: the step returns, and the modem has been sent exactly two
    commands, first [AT+QHTTPPUT=<length of the payload>,30,60] and then the
    payload, which holds the latitude and the longitude of the fix printed
    with 9 decimal places. *)
Theorem gps_encode_uploads (fuel : nat) (w : World G) (frame : list ascii) :
  0 < poll ->
  default_timeout + pass_max poll < 2 ^ 32 ->
  terminated (msgStream (dev w)) = true ->
  default_timeout < Z.of_nat fuel ->
  c_str (msgStream (dev w)) = Done frame ->
  isValid (decode encode frame (gps w)) = true ->
  fne (lat (decode encode frame (gps w))) (_newLat (trk w))
  || fne (lng (decode encode frame (gps w))) (_newLong (trk w)) = true ->
  exists w' data,
    gps_encode' fuel w = Done w' /\
    data = "{" +:+ dq +:+ "lat" +:+ dq +:+ ":"
           +:+ String_double (lat (decode encode frame (gps w))) 9
           +:+ "," +:+ dq +:+ "long" +:+ dq +:+ ":"
           +:+ String_double (lng (decode encode frame (gps w))) 9 +:+ "}" /\
    exchanges (trace (dev w'))
    = exchanges (trace (dev w))
      ++ ["AT+QHTTPPUT=" +:+ String_of_uint (String_length data) +:+ ",30,60"; data] /\
    isLocationUpdated (trk w') = true.
Proof.
  intros Hpoll Hwrap Hterm Hfuel Hframe Hvalid Hnew.
  destruct (gps_encode_runs fuel w Hpoll Hwrap Hterm Hfuel)
    as (frame' & w' & Hframe' & Hrun & Hg & Htrk & Hex & _).
  rewrite Hframe in Hframe'. injection Hframe' as <-.
  rewrite Hg in Htrk, Hex.
  assert (Hch : changed (located isValid lat lng (decode encode frame (gps w)) (trk w)) = true).
  { unfold located. rewrite Hvalid. exact Hnew. }
  rewrite Hch in Hex.
  assert (Htrk' : trk w' = report (set_current (lat (decode encode frame (gps w)))
                                               (lng (decode encode frame (gps w))) (trk w))).
  { rewrite Htrk. unfold track. rewrite Hch. unfold located. rewrite Hvalid. reflexivity. }
  exists w'. eexists. split; [exact Hrun|]. split; [reflexivity|]. split.
  - rewrite Hex, Htrk'. reflexivity.
  - rewrite Htrk'. reflexivity.
Qed.

(** C5, as the code has it.  A valid fix fed twice in a row, the second
    comparing equal to the first in latitude and in longitude, whatever
    happens to the device in between: both steps return; the first sets
    [isLocationUpdated] and uploads, two commands, if and only if the fix
    differs from the position last reported, and sends nothing otherwise;
    the second leaves [isLocationUpdated] false and sends nothing to the
    modem. *)
Theorem gps_encode_repeated_fix (fuel fuel2 : nat) (w : World G) (frame : list ascii)
    (d2 : Device) (frame2 : list ascii) :
  0 < poll ->
  default_timeout + pass_max poll < 2 ^ 32 ->
  terminated (msgStream (dev w)) = true ->
  default_timeout < Z.of_nat fuel ->
  c_str (msgStream (dev w)) = Done frame ->
  c_str (msgStream d2) = Done frame2 ->
  isValid (decode encode frame (gps w)) = true ->
  isValid (decode encode frame2 (decode encode frame (gps w))) = true ->
  (lat (decode encode frame2 (decode encode frame (gps w)))
   =? lat (decode encode frame (gps w)))%float = true ->
  (lng (decode encode frame2 (decode encode frame (gps w)))
   =? lng (decode encode frame (gps w)))%float = true ->
  exists w1 w2,
    gps_encode' fuel w = Done w1 /\
    gps_encode' fuel2 (set_dev d2 w1) = Done w2 /\
    isLocationUpdated (trk w1)
    = (fne (lat (decode encode frame (gps w))) (_newLat (trk w))
       || fne (lng (decode encode frame (gps w))) (_newLong (trk w))) /\
    exchanges (trace (dev w1))
    = exchanges (trace (dev w))
      ++ (if fne (lat (decode encode frame (gps w))) (_newLat (trk w))
             || fne (lng (decode encode frame (gps w))) (_newLong (trk w))
          then upload (gps_update String_double (trk w1)) else []) /\
    isLocationUpdated (trk w2) = false /\
    exchanges (trace (dev w2)) = exchanges (trace d2).
Proof.
  intros Hpoll Hwrap Hterm Hfuel Hframe Hframe2 Hvalid Hvalid2 Hlat2 Hlng2.
  destruct (gps_encode_runs fuel w Hpoll Hwrap Hterm Hfuel)
    as (frame' & w1 & Hframe' & Hrun & Hg & Htrk & Hex & _).
  rewrite Hframe in Hframe'. injection Hframe' as <-.
  rewrite Hg in Htrk, Hex.
  set (g1 := decode encode frame (gps w)) in *.
  assert (Hloc : changed (located isValid lat lng g1 (trk w))
                 = (fne (lat g1) (_newLat (trk w)) || fne (lng g1) (_newLong (trk w)))).
  { unfold located. rewrite Hvalid. reflexivity. }
  assert (Hsame : changed (located isValid lat lng (decode encode frame2 (gps (set_dev d2 w1)))
                                   (trk (set_dev d2 w1))) = false).
  { simpl. rewrite Hg. fold g1. unfold located. rewrite Hvalid2.
    rewrite Htrk. unfold track, located. rewrite Hvalid.
    destruct (changed (set_current (lat g1) (lng g1) (trk w))) eqn:Hch.
    - apply changed_false_iff. simpl. split; assumption.
    - apply changed_false_iff. apply changed_false_iff in Hch as [Hla Hlo].
      simpl in *. split.
      + exact (float_eqb_trans _ _ _ Hlat2 Hla).
      + exact (float_eqb_trans _ _ _ Hlng2 Hlo). }
  destruct (gps_encode_unchanged fuel2 (set_dev d2 w1) frame2 Hframe2 Hsame)
    as (w2 & Hrun2 & _ & Htrk2 & Hex2).
  exists w1, w2. split; [exact Hrun|]. split; [exact Hrun2|].
  split; [rewrite Htrk, track_updated; exact Hloc|].
  split; [rewrite Hex, Hloc; reflexivity|].
  split; [rewrite Htrk2; reflexivity | exact Hex2].
Qed.

End Tracking.

(** ** sys_restart *)

(** C9, as the code has it.  The handler turns the WiFi off and only then
    sends the response to the diagnostics request; the reset follows
    whatever became of that response. *)
Theorem sys_restart_order (String_bool : string -> bool) (d : Device) :
  trace (sys_restart String_bool d)
  = trace d ++ [SerialPrintln "Restarting system";
                WiFiDisconnect;
                WiFiMode WIFI_OFF;
                ServerSend 200 "text/html" (SendHTML String_bool "Restarting ...");
                EspRestart].
Proof.
  unfold sys_restart. simpl. rewrite <- !app_assoc. reflexivity.
Qed.

(** ** The claims on concrete runs *)

Lemma test_numeric : numeric fix_seen test_lat test_lng.
Proof. intros [seen p] _. destruct p; split; reflexivity. Qed.

(** The payload of the sample position. *)
Example gps_update_sample :
  gps_update fixed_point
    {| _lat := sample_lat; _long := sample_lng; _prevLat := 0; _prevLong := 0;
       _newLat := sample_lat; _newLong := sample_lng; isLocationUpdated := true |}
  = "{" +:+ dq +:+ "lat" +:+ dq +:+ ":1.234567890," +:+ dq +:+ "long" +:+ dq
    +:+ ":36.987654321}".
Proof. vm_compute. reflexivity. Qed.

(** The sample latitude and the next double above it are one unit in the
    last place apart. *)
Example sample_one_ulp : one_ulp_apart (next_up sample_lat) sample_lat.
Proof. right. split; reflexivity. Qed.

Lemma gps_encode_updated_iff_witness :
  exists frame w',
    c_str (msgStream (dev (reported "$+"))) = Done frame /\
    test_gps_encode 4001 (reported "$+") = Done w' /\
    _lat (trk w') = next_up sample_lat /\
    _long (trk w') = sample_lng /\
    isLocationUpdated (trk w') = true.
Proof.
  destruct (gps_encode_updated_iff 1000 fixed_point (fun _ => true) TestGps
           test_encode fix_seen test_lat test_lng 4001 (reported "$+"))
    as (frame & w' & Hframe & Hrun & Hla & Hlo & _ & Hulp).
  - lia.
  - vm_compute. reflexivity.
  - vm_compute. reflexivity.
  - vm_compute. reflexivity.
  - exists frame, w'.
    assert (Hf : c_str (msgStream (dev (reported "$+"))) = Done (list_ascii_of_string "$+"))
      by (vm_compute; reflexivity).
    rewrite Hf in Hframe. injection Hframe as <-.
    rewrite Hf.
    split; [reflexivity|]. split; [exact Hrun|].
    split; [exact Hla|]. split; [exact Hlo|].
    apply Hulp. left. exact sample_one_ulp.
Defined.

Lemma gps_encode_uploads_witness :
  exists w' data,
    test_gps_encode 4001 (booted "$GPGGA") = Done w' /\
    data = "{" +:+ dq +:+ "lat" +:+ dq +:+ ":" +:+ fixed_point sample_lat 9
           +:+ "," +:+ dq +:+ "long" +:+ dq +:+ ":" +:+ fixed_point sample_lng 9 +:+ "}" /\
    exchanges (trace (dev w'))
    = exchanges (trace (dev (booted "$GPGGA")))
      ++ ["AT+QHTTPPUT=" +:+ String_of_uint (String_length data) +:+ ",30,60"; data] /\
    isLocationUpdated (trk w') = true.
Proof.
  apply (gps_encode_uploads 1000 fixed_point (fun _ => true) TestGps
           test_encode fix_seen test_lat test_lng 4001 (booted "$GPGGA")
           (list_ascii_of_string "$GPGGA")).
  - lia.
  - vm_compute. reflexivity.
  - vm_compute. reflexivity.
  - vm_compute. reflexivity.
  - vm_compute. reflexivity.
  - vm_compute. reflexivity.
  - vm_compute. reflexivity.
Defined.

Lemma gps_encode_repeated_fix_witness :
  exists w1 w2,
    test_gps_encode 4001 (booted "$GPGGA") = Done w1 /\
    test_gps_encode 0 (set_dev (holding (list_ascii_of_string "$GPRMC") 30000) w1) = Done w2 /\
    isLocationUpdated (trk w1) = true /\
    exchanges (trace (dev w1)) = upload (gps_update fixed_point (trk w1)) /\
    isLocationUpdated (trk w2) = false /\
    exchanges (trace (dev w2)) = [].
Proof.
  apply (gps_encode_repeated_fix 1000 fixed_point (fun _ => true) TestGps
           test_encode fix_seen test_lat test_lng 4001 0 (booted "$GPGGA")
           (list_ascii_of_string "$GPGGA")
           (holding (list_ascii_of_string "$GPRMC") 30000)
           (list_ascii_of_string "$GPRMC")).
  - lia.
  - vm_compute. reflexivity.
  - vm_compute. reflexivity.
  - vm_compute. reflexivity.
  - vm_compute. reflexivity.
  - vm_compute. reflexivity.
  - vm_compute. reflexivity.
  - vm_compute. reflexivity.
  - vm_compute. reflexivity.
  - vm_compute. reflexivity.
Defined.

(** C5, as the claim states it, fails: from the all-zero start a valid fix
    at latitude 0, longitude 0 equals the position last reported, and its
    first ingestion neither sets [isLocationUpdated] nor sends anything to
    the modem. *)
Lemma gps_encode_first_fix_not_new :
  exists w1,
    test_gps_encode 4001 (at_origin "$GPGGA") = Done w1 /\
    fix_seen (gps w1) = true /\
    test_lat (gps w1) = 0%float /\
    test_lng (gps w1) = 0%float /\
    isLocationUpdated (trk w1) = false /\
    exchanges (trace (dev w1)) = [].
Proof.
  destruct (gps_encode_unchanged 1000 fixed_point (fun _ => true) TestGps
              test_encode fix_seen test_lat test_lng 4001 (at_origin "$GPGGA")
              (list_ascii_of_string "$GPGGA"))
    as (w1 & Hrun & Hg & Htrk & Hex).
  - vm_compute. reflexivity.
  - vm_compute. reflexivity.
  - exists w1. split; [exact Hrun|].
    rewrite Hg, Htrk, Hex. repeat split.
Qed.

(** The world in which the sample position has been reported is reached
    from the start by one step on a frame with a fix. *)
Lemma reported_reachable (frame : string) :
  reachable 1000 fixed_point (fun _ => true) test_encode fix_seen test_lat test_lng
            (reported frame).
Proof.
  destruct (gps_encode_runs 1000 fixed_point (fun _ => true) TestGps
              test_encode fix_seen test_lat test_lng 4001 (booted "$GPGGA"))
    as (frame1 & w1 & Hframe & Hrun & Hg & Htrk & _).
  - lia.
  - vm_compute. reflexivity.
  - vm_compute. reflexivity.
  - vm_compute. reflexivity.
  - assert (Hf : c_str (msgStream (dev (booted "$GPGGA")))
                 = Done (list_ascii_of_string "$GPGGA")) by (vm_compute; reflexivity).
    rewrite Hf in Hframe. injection Hframe as <-.
    assert (Hreach : reachable 1000 fixed_point (fun _ => true)
                               test_encode fix_seen test_lat test_lng w1).
    { eapply reach_gps_encode; [|exact Hrun]. apply reach_start. }
    replace (reported frame)
      with (set_dev (holding (list_ascii_of_string frame) 20000) w1).
    + apply reach_device. exact Hreach.
    + unfold set_dev, reported. rewrite Htrk, Hg. f_equal.
Qed.

Lemma gps_encode_invalid_fix_witness :
  exists w',
    test_gps_encode 0 (reported "$GPGGA?") = Done w' /\
    _lat (trk w') = sample_lat /\
    _long (trk w') = sample_lng /\
    _newLat (trk w') = sample_lat /\
    _newLong (trk w') = sample_lng /\
    isLocationUpdated (trk w') = false /\
    exchanges (trace (dev w')) = [].
Proof.
  apply (gps_encode_invalid_fix 1000 fixed_point (fun _ => true) TestGps
           test_encode fix_seen test_lat test_lng 0 (reported "$GPGGA?")
           (list_ascii_of_string "$GPGGA?")).
  - exact test_numeric.
  - exact (reported_reachable "$GPGGA?").
  - vm_compute. reflexivity.
  - vm_compute. reflexivity.
Defined.

Lemma gps_encode_agree_witness :
  exists w',
    test_gps_encode 4001 (reported "$+") = Done w' /\
    isLocationUpdated (trk w') = true /\
    (_lat (trk w') =? _newLat (trk w'))%float = true /\
    (_long (trk w') =? _newLong (trk w'))%float = true.
Proof.
  destruct (gps_encode_runs 1000 fixed_point (fun _ => true) TestGps
              test_encode fix_seen test_lat test_lng 4001 (reported "$+"))
    as (frame & w' & Hframe & Hrun & Hg & Htrk & _).
  - lia.
  - vm_compute. reflexivity.
  - vm_compute. reflexivity.
  - vm_compute. reflexivity.
  - assert (Hf : c_str (msgStream (dev (reported "$+"))) = Done (list_ascii_of_string "$+"))
      by (vm_compute; reflexivity).
    rewrite Hf in Hframe. injection Hframe as <-.
    exists w'. split; [exact Hrun|]. split.
    + rewrite Htrk, Hg. vm_compute. reflexivity.
    + apply (gps_encode_agree 1000 fixed_point (fun _ => true) TestGps
               test_encode fix_seen test_lat test_lng 4001 (reported "$+") w').
      * exact test_numeric.
      * exact (reported_reachable "$+").
      * exact Hrun.
Defined.

(** * Further properties of the code *)

(** ** cleanSerial *)

Lemma port_set_Serial_rx (id : PortId) (r : list ascii) (d : Device) :
  port id (set_Serial_rx r d) = port id d.
Proof. destruct id; reflexivity. Qed.

(** [cleanSerial] empties the console input and the receive buffer of the
    port it is given, and nothing else: the bytes still to arrive on that
    port, the other port, the clock, the buffer and the trace are left as
    they were. *)
Theorem cleanSerial_flushes (id id' : PortId) (d : Device) :
  Serial_rx (cleanSerial id d) = [] /\
  rx (port id (cleanSerial id d)) = [] /\
  wire (port id (cleanSerial id d)) = wire (port id d) /\
  (id' <> id -> port id' (cleanSerial id d) = port id' d) /\
  now (cleanSerial id d) = now d /\
  msgStream (cleanSerial id d) = msgStream d /\
  trace (cleanSerial id d) = trace d.
Proof.
  destruct (cleanSerial_frame id d) as (Hnow & Hmsg & Htr).
  rewrite cleanSerial_rx. cbn [rx wire].
  repeat split; try assumption.
  - unfold cleanSerial.
    destruct (set_port_frame id
                {| rx := discard (rx (port id (set_Serial_rx (discard (Serial_rx d)) d)));
                   wire := wire (port id (set_Serial_rx (discard (Serial_rx d)) d)) |}
                (set_Serial_rx (discard (Serial_rx d)) d)) as (_ & _ & _ & Hrx).
    rewrite Hrx. simpl. apply discard_nil.
  - intros Hne. unfold cleanSerial. destruct id, id'; try congruence; reflexivity.
Qed.

(** ** read_serial and the bounds of its buffer *)

Lemma store_app_l (b b1 tl : list ascii) (i : Z) (c : ascii) :
  store b i c = Done b1 -> store (b ++ tl) i c = Done (b1 ++ tl).
Proof.
  intros Hst. pose proof (store_in_bounds _ _ _ _ Hst) as Hin.
  unfold store in *.
  replace ((0 <=? i) && (i <? Z.of_nat (length b))) with true in Hst
    by (symmetry; apply andb_true_iff; split; [apply Z.leb_le | apply Z.ltb_lt]; lia).
  rewrite length_app.
  replace ((0 <=? i) && (i <? Z.of_nat (length b + length tl))) with true
    by (symmetry; apply andb_true_iff; split; [apply Z.leb_le | apply Z.ltb_lt]; lia).
  injection Hst as <-. f_equal.
  apply insert_app_l. lia.
Qed.

(** Cells after those the loop works on are carried along untouched. *)
Lemma read_serial_loop_tail (fuel : nat) :
  forall (id : PortId) (d : Device) (b tl : list ascii) (pos : Z) (full : bool)
         (d' : Device) (b' : list ascii) (pos' : Z) (full' : bool),
    read_serial_loop fuel id d b pos full = Done (d', b', pos', full') ->
    read_serial_loop fuel id d (b ++ tl) pos full = Done (d', b' ++ tl, pos', full').
Proof.
  induction fuel as [|fuel IH]; intros id d b tl pos full d' b' pos' full' Hrun.
  - discriminate.
  - rewrite read_serial_loop_S in *.
    destruct ((0 <? available (port id d)) && negb full).
    + destruct (ss_read (port id d)) as [v p]. cbv zeta in *.
      destruct (pos =? MESSAGE_BUFFER_SIZE - 1).
      * injection Hrun as <- <- <- <-. reflexivity.
      * destruct (store b pos (to_uchar v)) as [b1| |] eqn:Hst; try discriminate.
        rewrite (store_app_l _ _ tl _ _ Hst), bind_Done.
        rewrite bind_Done in Hrun. apply IH. exact Hrun.
    + injection Hrun as <- <- <- <-. reflexivity.
Qed.

(** On a buffer of at least [MESSAGE_BUFFER_SIZE] cells [read_serial]
    returns; only the first [MESSAGE_BUFFER_SIZE] cells are written. *)
Lemma read_serial_long (id : PortId) (d : Device) (buffer : list ascii) :
  MESSAGE_BUFFER_SIZE <= Z.of_nat (length buffer) ->
  exists d' b' full,
    read_serial id d (take (Z.to_nat MESSAGE_BUFFER_SIZE) buffer) = Done (d', b', full) /\
    read_serial id d buffer
    = Done (d', b' ++ drop (Z.to_nat MESSAGE_BUFFER_SIZE) buffer, full).
Proof.
  intros Hlen.
  pose proof MESSAGE_BUFFER_SIZE_eq as Hsize.
  set (n := Z.to_nat MESSAGE_BUFFER_SIZE).
  assert (Hn : Z.of_nat (length (take n buffer)) = MESSAGE_BUFFER_SIZE)
    by (rewrite length_take; subst n; lia).
  destruct (read_serial_runs id d (take n buffer) Hn) as (d' & Hrun & _).
  eexists d', _, _. split; [exact Hrun|].
  unfold read_serial in *.
  rewrite memset_whole in Hrun by exact Hn. rewrite bind_Done in Hrun.
  unfold memset.
  replace (MESSAGE_BUFFER_SIZE <=? Z.of_nat (length buffer)) with true
    by (symmetry; apply Z.leb_le; exact Hlen).
  rewrite bind_Done. fold n in Hrun |- *.
  destruct (read_serial_loop n id d (replicate n NUL) 0 false)
    as [[[[d1 b1] pos1] f1]| |] eqn:Hloop; try discriminate.
  rewrite bind_Done in Hrun.
  rewrite (read_serial_loop_tail _ _ _ _ (drop n buffer) _ _ _ _ _ _ Hloop), bind_Done.
  destruct (store b1 pos1 NUL) as [b2| |] eqn:Hst; try discriminate.
  rewrite (store_app_l _ _ (drop n buffer) _ _ Hst), bind_Done.
  injection Hrun as <- <- <-. reflexivity.
Qed.

(** [read_serial] writes outside its buffer exactly when the buffer has
    fewer than [MESSAGE_BUFFER_SIZE] cells, whatever the port delivers, and
    its loop always ends. *)
Theorem read_serial_fault_iff (id : PortId) (d : Device) (buffer : list ascii) :
  (read_serial id d buffer = Fault <-> Z.of_nat (length buffer) < MESSAGE_BUFFER_SIZE) /\
  read_serial id d buffer <> Spin.
Proof.
  destruct (Z.ltb_spec (Z.of_nat (length buffer)) MESSAGE_BUFFER_SIZE) as [Hshort|Hlong].
  - assert (Hf : read_serial id d buffer = Fault).
    { unfold read_serial, memset.
      replace (MESSAGE_BUFFER_SIZE <=? Z.of_nat (length buffer)) with false
        by (symmetry; apply Z.leb_gt; exact Hshort).
      reflexivity. }
    rewrite Hf. split; [split; [intros _; exact Hshort | reflexivity] | discriminate].
  - destruct (read_serial_long id d buffer Hlong) as (d' & b' & full & _ & Hrun).
    rewrite Hrun. split; [split; [discriminate | lia] | discriminate].
Qed.

(** On a buffer with cells to spare, the cells after the first
    [MESSAGE_BUFFER_SIZE] keep their content and the buffer its length. *)
Theorem read_serial_touches_prefix (id : PortId) (d : Device) (buffer : list ascii) :
  MESSAGE_BUFFER_SIZE <= Z.of_nat (length buffer) ->
  exists d' buffer' full,
    read_serial id d buffer = Done (d', buffer', full) /\
    length buffer' = length buffer /\
    drop (Z.to_nat MESSAGE_BUFFER_SIZE) buffer' = drop (Z.to_nat MESSAGE_BUFFER_SIZE) buffer /\
    terminated (take (Z.to_nat MESSAGE_BUFFER_SIZE) buffer') = true.
Proof.
  intros Hlen.
  pose proof MESSAGE_BUFFER_SIZE_eq as Hsize.
  destruct (read_serial_long id d buffer Hlen) as (d' & b' & full & Hshort & Hrun).
  set (n := Z.to_nat MESSAGE_BUFFER_SIZE) in *.
  assert (Hn : Z.of_nat (length (take n buffer)) = MESSAGE_BUFFER_SIZE)
    by (rewrite length_take; subst n; lia).
  pose proof (read_serial_terminated _ _ _ _ _ _ Hn Hshort) as Hterm.
  assert (Hb' : length b' = n).
  { unfold terminated in Hterm. apply andb_true_iff in Hterm as [Hl _].
    apply Z.eqb_eq in Hl. subst n. lia. }
  exists d', (b' ++ drop n buffer), full.
  split; [exact Hrun|]. split; [|split].
  - rewrite length_app, length_drop, Hb'. subst n. lia.
  - rewrite drop_app_length'; [reflexivity | symmetry; exact Hb'].
  - rewrite take_app_length'; [exact Hterm | symmetry; exact Hb'].
Qed.

Lemma read_serial_touches_prefix_witness :
  exists d' buffer' full,
    read_serial GPS (receiving GPS (list_ascii_of_string "$GPGGA") 0)
                (replicate 4100 "x"%char)
    = Done (d', buffer', full) /\
    length buffer' = length (replicate 4100 "x"%char) /\
    drop (Z.to_nat MESSAGE_BUFFER_SIZE) buffer'
    = drop (Z.to_nat MESSAGE_BUFFER_SIZE) (replicate 4100 "x"%char) /\
    terminated (take (Z.to_nat MESSAGE_BUFFER_SIZE) buffer') = true.
Proof.
  apply read_serial_touches_prefix.
  vm_compute. discriminate.
Defined.

(** ** read_serial and time *)

Lemma read_serial_duration_room (r : nat) (id : PortId) (d : Device) (buffer : list ascii) :
  Z.to_nat MESSAGE_BUFFER_SIZE = S r ->
  Z.of_nat (length buffer) = MESSAGE_BUFFER_SIZE ->
  exists d' buffer' full,
    read_serial id d buffer = Done (d', buffer', full) /\
    now d' = now d + 2 * Z.of_nat (length (take r (offered id d))) /\
    now d' - now d <= 2 * (MESSAGE_BUFFER_SIZE - 1).
Proof.
  intros Hroom Hlen.
  pose proof MESSAGE_BUFFER_SIZE_eq as Hsize.
  unfold read_serial. rewrite memset_whole by assumption. rewrite bind_Done.
  unfold offered. rewrite Hroom.
  destruct (read_serial_loop_spec r (S r) id d []) as (d' & Hloop);
    [lia | simpl length; lia |].
  cbv zeta in Hloop. cbn [app length Nat.add] in Hloop.
  change (Z.of_nat 0) with 0 in Hloop.
  pose proof (read_serial_loop_frame _ _ _ _ _ _ _ _ _ _ Hloop) as (_ & _ & _ & _ & _ & Hnow).
  rewrite Hloop, bind_Done.
  set (kept := take r (drain (S r) id d)) in *.
  assert (Hkept : (length kept <= r)%nat) by (subst kept; rewrite length_take; lia).
  replace (S r - length kept)%nat with (S (r - length kept)) by lia.
  cbn [replicate].
  rewrite store_Done, bind_Done.
  eexists d', _, _. split; [reflexivity|]. split; lia.
Qed.

(** A call of [read_serial] lasts 2 ms for each byte it stores, so at most
    2 * ([MESSAGE_BUFFER_SIZE] - 1) ms. *)
Theorem read_serial_duration (id : PortId) (d : Device) (buffer : list ascii) :
  Z.of_nat (length buffer) = MESSAGE_BUFFER_SIZE ->
  exists d' buffer' full,
    read_serial id d buffer = Done (d', buffer', full) /\
    now d' = now d
             + 2 * Z.of_nat (length (take (Z.to_nat (MESSAGE_BUFFER_SIZE - 1)) (offered id d))) /\
    now d' - now d <= 2 * (MESSAGE_BUFFER_SIZE - 1).
Proof. exact (read_serial_duration_room _ id d buffer room_eq). Qed.

Lemma read_serial_duration_witness :
  exists d' buffer' full,
    read_serial GPS (receiving GPS (list_ascii_of_string "$GPGGA") 0) (msgStream (idle 0))
    = Done (d', buffer', full) /\
    now d' = now (receiving GPS (list_ascii_of_string "$GPGGA") 0)
             + 2 * Z.of_nat (length (take (Z.to_nat (MESSAGE_BUFFER_SIZE - 1))
                                          (offered GPS (receiving GPS (list_ascii_of_string "$GPGGA") 0)))) /\
    now d' - now (receiving GPS (list_ascii_of_string "$GPGGA") 0)
    <= 2 * (MESSAGE_BUFFER_SIZE - 1).
Proof.
  apply read_serial_duration.
  vm_compute. reflexivity.
Defined.

(** ** read_serial and the timing of the sender *)

Lemma filter_none {A : Type} (f : A -> bool) (l : list A) :
  Forall (fun x => f x = false) l -> List.filter f l = [].
Proof.
  induction 1 as [|x l Hx _ IH]; simpl; [reflexivity|].
  rewrite Hx. exact IH.
Qed.

Lemma filter_all {A : Type} (f : A -> bool) (l : list A) :
  Forall (fun x => f x = true) l -> List.filter f l = l.
Proof.
  induction 1 as [|x l Hx _ IH]; simpl; [reflexivity|].
  rewrite Hx, IH. reflexivity.
Qed.

(** Bytes that are not due yet stay on the wire. *)
Lemma deliver_later (t : Z) (l : list ascii) (w : list (Z * ascii)) :
  Forall (fun e => t < fst e) w ->
  deliver t {| rx := l; wire := w |} = {| rx := l; wire := w |}.
Proof.
  intros Hlater. unfold deliver. cbn [rx wire].
  rewrite filter_none, filter_all.
  - simpl. rewrite app_nil_r. reflexivity.
  - eapply Forall_impl; [exact Hlater|]. intros e He. unfold due.
    apply negb_true_iff, Z.leb_gt. exact He.
  - eapply Forall_impl; [exact Hlater|]. intros e He. unfold due.
    apply Z.leb_gt. exact He.
Qed.

(** Bytes that are all due arrive together, in their order. *)
Lemma deliver_due (t : Z) (l : list ascii) (w : list (Z * ascii)) :
  Forall (fun e => fst e <= t) w ->
  deliver t {| rx := l; wire := w |} = {| rx := l ++ List.map snd w; wire := [] |}.
Proof.
  intros Hdue. unfold deliver. cbn [rx wire].
  rewrite filter_all, filter_none.
  - reflexivity.
  - eapply Forall_impl; [exact Hdue|]. intros e He. unfold due.
    apply negb_false_iff, Z.leb_le. exact He.
  - eapply Forall_impl; [exact Hdue|]. intros e He. unfold due.
    apply Z.leb_le. exact He.
Qed.

Lemma port_emit (id : PortId) (e : Event) (d : Device) : port id (emit e d) = port id d.
Proof. destruct id; reflexivity. Qed.

(** The port after the loop, when whatever is still on the wire arrives
    only after the loop has drained what the port holds: the loop has taken
    one byte for each it stored and one more if it found the buffer full. *)
Lemma read_serial_loop_quiet (fuel : nat) :
  forall (id : PortId) (d : Device) (b : list ascii) (pos : Z) (l : list ascii)
         (w : list (Z * ascii)) (d' : Device) (b' : list ascii) (pos' : Z) (full' : bool),
    read_serial_loop fuel id d b pos false = Done (d', b', pos', full') ->
    port id d = {| rx := l; wire := w |} ->
    Forall (fun e => now d + 2 * Z.of_nat (length l) < fst e) w ->
    port id d'
    = {| rx := drop (Z.to_nat (pos' - pos) + (if full' then 1 else 0)) l; wire := w |}.
Proof.
  induction fuel as [|fuel IH]; intros id d b pos l w d' b' pos' full' Hrun Hport Hlater.
  - discriminate.
  - pose proof Hrun as Hrun0.
    rewrite read_serial_loop_S in Hrun.
    destruct l as [|c l].
    + unfold available in Hrun. rewrite Hport in Hrun. cbn in Hrun.
      injection Hrun as <- _ <- <-. rewrite Hport, drop_nil. reflexivity.
    + unfold available, ss_read in Hrun. rewrite Hport in Hrun. cbn [rx wire length] in Hrun.
      replace (0 <? Z.of_nat (S (length l))) with true in Hrun
        by (symmetry; apply Z.ltb_lt; lia).
      cbn [andb negb] in Hrun. cbv zeta in Hrun.
      destruct (pos =? MESSAGE_BUFFER_SIZE - 1).
      * injection Hrun as <- _ <- <-.
        rewrite port_emit, port_set_port, Z.sub_diag. reflexivity.
      * destruct (store b pos (to_uchar (Z.of_N (N_of_ascii c)))) as [b1| |]; try discriminate.
        rewrite bind_Done in Hrun.
        pose proof (read_serial_loop_frame _ _ _ _ _ _ _ _ _ _ Hrun) as (_ & _ & _ & Hpos & _).
        set (d1 := set_port id {| rx := l; wire := w |} d) in *.
        destruct (set_port_frame id {| rx := l; wire := w |} d) as (Hnow1 & _).
        fold d1 in Hnow1.
        assert (Hport2 : port id (delay 2 d1) = {| rx := l; wire := w |}).
        { unfold delay. rewrite port_elapse. subst d1. rewrite port_set_port.
          apply deliver_later. rewrite Hnow1.
          eapply Forall_impl; [exact Hlater|]. intros e He. cbn [length] in He. lia. }
        rewrite (IH id (delay 2 d1) b1 (pos + 1) l w d' b' pos' full' Hrun Hport2).
        -- f_equal.
           replace (Z.to_nat (pos' - pos)) with (S (Z.to_nat (pos' - (pos + 1)))) by lia.
           reflexivity.
        -- change (now (delay 2 d1)) with (now d1 + 2). rewrite Hnow1.
           eapply Forall_impl; [exact Hlater|]. intros e He. cbn [length] in He. lia.
Qed.

(** What such a port offers is what it holds. *)
Lemma drain_quiet (n : nat) :
  forall (id : PortId) (d : Device) (l : list ascii) (w : list (Z * ascii)),
    port id d = {| rx := l; wire := w |} ->
    Forall (fun e => now d + 2 * Z.of_nat (length l) < fst e) w ->
    drain n id d = take n l.
Proof.
  induction n as [|n IH]; intros id d l w Hport Hlater; [reflexivity|].
  rewrite drain_S, Hport. unfold available, ss_read. cbn [rx wire].
  destruct l as [|c l]; [reflexivity|].
  cbn [length]. replace (0 <? Z.of_nat (S (length l))) with true
    by (symmetry; apply Z.ltb_lt; lia).
  rewrite to_uchar_of_ascii. cbn [take]. f_equal.
  destruct (set_port_frame id {| rx := l; wire := w |} d) as (Hnow1 & _).
  apply (IH id _ l w).
  - rewrite port_elapse, port_set_port. apply deliver_later. rewrite Hnow1.
    eapply Forall_impl; [exact Hlater|]. intros e He. cbn [length] in He. lia.
  - change (now (elapse 2 (set_port id {| rx := l; wire := w |} d)))
      with (now (set_port id {| rx := l; wire := w |} d) + 2).
    rewrite Hnow1.
    eapply Forall_impl; [exact Hlater|]. intros e He. cbn [length] in He. lia.
Qed.

Lemma read_serial_quiet_room (r : nat) (id : PortId) (d : Device) (buffer l : list ascii)
    (w : list (Z * ascii)) :
  Z.to_nat MESSAGE_BUFFER_SIZE = S r ->
  Z.of_nat (length buffer) = MESSAGE_BUFFER_SIZE ->
  port id d = {| rx := l; wire := w |} ->
  Forall (fun e => now d + 2 * Z.of_nat (length l) < fst e) w ->
  exists d',
    read_serial id d buffer
    = Done (d',
            take r l ++ replicate (S r - length (take r l)) NUL,
            bool_decide (S r <= length l)%nat) /\
    port id d' = {| rx := drop (S r) l; wire := w |}.
Proof.
  intros Hroom Hlen Hport Hlater.
  pose proof MESSAGE_BUFFER_SIZE_eq as Hsize.
  unfold read_serial. rewrite memset_whole by assumption. rewrite bind_Done.
  rewrite Hroom.
  destruct (read_serial_loop_spec r (S r) id d []) as (d' & Hloop);
    [lia | simpl length; lia |].
  cbv zeta in Hloop. cbn [app length Nat.add] in Hloop.
  change (Z.of_nat 0) with 0 in Hloop.
  rewrite (drain_quiet (S r) id d l w Hport Hlater) in Hloop.
  pose proof (read_serial_loop_quiet _ _ _ _ _ _ _ _ _ _ _ Hloop Hport Hlater) as Hport'.
  rewrite Hloop, bind_Done.
  assert (Htt : take r (take (S r) l) = take r l)
    by (rewrite take_take; f_equal; lia).
  rewrite Htt in *.
  assert (Hkept : length (take r l) = (r `min` length l)%nat) by apply length_take.
  assert (Hfull : bool_decide (length (take (S r) l) = S r)
                  = bool_decide (S r <= length l)%nat)
    by (apply bool_decide_ext; rewrite length_take; lia).
  rewrite Hfull in Hport' |- *.
  replace (S r - length (take r l))%nat with (S (r - length (take r l))) by lia.
  cbn [replicate].
  rewrite store_Done, bind_Done.
  exists d'. split; [reflexivity|].
  rewrite Hport'. f_equal. rewrite Z.sub_0_r, Nat2Z.id.
  destruct (decide (S r <= length l)%nat) as [Hover|Hover].
  - rewrite bool_decide_eq_true_2 by exact Hover. f_equal. lia.
  - rewrite bool_decide_eq_false_2 by exact Hover.
    rewrite !drop_ge by lia. reflexivity.
Qed.


(** When the port holds [MESSAGE_BUFFER_SIZE] bytes or more, [read_serial]
    takes [MESSAGE_BUFFER_SIZE] of them from the port and stores one fewer:
    the byte it reads when it finds the buffer full is in neither the
    buffer nor the port afterwards. *)
Theorem read_serial_overflow_drops (id : PortId) (d : Device) (buffer l : list ascii)
    (w : list (Z * ascii)) :
  Z.of_nat (length buffer) = MESSAGE_BUFFER_SIZE ->
  port id d = {| rx := l; wire := w |} ->
  Forall (fun e => now d + 2 * Z.of_nat (length l) < fst e) w ->
  MESSAGE_BUFFER_SIZE <= Z.of_nat (length l) ->
  exists d',
    read_serial id d buffer
    = Done (d', take (Z.to_nat (MESSAGE_BUFFER_SIZE - 1)) l ++ [NUL], true) /\
    port id d' = {| rx := drop (Z.to_nat MESSAGE_BUFFER_SIZE) l; wire := w |}.
Proof.
  intros Hlen Hport Hlater Hmany.
  pose proof MESSAGE_BUFFER_SIZE_eq as Hsize.
  pose proof room_eq as Hroom.
  remember (Z.to_nat (MESSAGE_BUFFER_SIZE - 1)) as r eqn:Hr.
  destruct (read_serial_quiet_room r id d buffer l w Hroom Hlen Hport Hlater)
    as (d' & Hrun & Hport').
  rewrite bool_decide_eq_true_2 in Hrun by lia.
  rewrite length_take in Hrun.
  replace (S r - r `min` length l)%nat with 1%nat in Hrun by lia.
  exists d'. split; [exact Hrun|].
  rewrite Hroom. exact Hport'.
Qed.

Lemma read_serial_overflow_drops_witness :
  exists d',
    read_serial GSM (receiving GSM (replicate 4096 "a"%char ++ list_ascii_of_string "bc") 0)
                (msgStream (idle 0))
    = Done (d', take (Z.to_nat (MESSAGE_BUFFER_SIZE - 1))
                     (replicate 4096 "a"%char ++ list_ascii_of_string "bc") ++ [NUL], true) /\
    port GSM d'
    = {| rx := drop (Z.to_nat MESSAGE_BUFFER_SIZE)
                    (replicate 4096 "a"%char ++ list_ascii_of_string "bc");
         wire := [] |}.
Proof.
  apply read_serial_overflow_drops.
  - vm_compute. reflexivity.
  - reflexivity.
  - constructor.
  - vm_compute. discriminate.
Defined.

(** A pause of the sender ends the frame.  When the bytes still to come
    arrive only after [read_serial] has drained what the port holds, the
    buffer gets exactly the bytes the port holds, the port is left empty and
    the later bytes stay on the wire for the next call. *)
Theorem read_serial_gap_ends_frame (id : PortId) (d : Device) (buffer l : list ascii)
    (w : list (Z * ascii)) :
  Z.of_nat (length buffer) = MESSAGE_BUFFER_SIZE ->
  port id d = {| rx := l; wire := w |} ->
  Forall (fun e => now d + 2 * Z.of_nat (length l) < fst e) w ->
  Z.of_nat (length l) < MESSAGE_BUFFER_SIZE ->
  exists d',
    read_serial id d buffer
    = Done (d', l ++ replicate (Z.to_nat MESSAGE_BUFFER_SIZE - length l) NUL, false) /\
    port id d' = {| rx := []; wire := w |}.
Proof.
  intros Hlen Hport Hlater Hfew.
  pose proof MESSAGE_BUFFER_SIZE_eq as Hsize.
  pose proof room_eq as Hroom.
  remember (Z.to_nat (MESSAGE_BUFFER_SIZE - 1)) as r eqn:Hr.
  destruct (read_serial_quiet_room r id d buffer l w Hroom Hlen Hport Hlater)
    as (d' & Hrun & Hport').
  rewrite bool_decide_eq_false_2 in Hrun by lia.
  rewrite take_ge in Hrun by lia.
  rewrite drop_ge in Hport' by lia.
  exists d'. split; [|exact Hport'].
  rewrite Hroom. exact Hrun.
Qed.

Lemma read_serial_gap_ends_frame_witness :
  exists d',
    read_serial GPS
      (set_port GPS {| rx := list_ascii_of_string "$GP"; wire := [(7, "G"%char); (9, "A"%char)] |}
                (idle 0))
      (msgStream (idle 0))
    = Done (d', list_ascii_of_string "$GP"
                ++ replicate (Z.to_nat MESSAGE_BUFFER_SIZE - length (list_ascii_of_string "$GP")) NUL,
            false) /\
    port GPS d' = {| rx := []; wire := [(7, "G"%char); (9, "A"%char)] |}.
Proof.
  apply read_serial_gap_ends_frame.
  - vm_compute. reflexivity.
  - reflexivity.
  - repeat constructor.
  - vm_compute. reflexivity.
Defined.

(** The buffer after a call whose source offers fewer than
    [MESSAGE_BUFFER_SIZE] bytes. *)
Lemma read_serial_fits (id : PortId) (d : Device) (buffer data : list ascii) :
  Z.of_nat (length buffer) = MESSAGE_BUFFER_SIZE ->
  offered id d = data ->
  Z.of_nat (length data) < MESSAGE_BUFFER_SIZE ->
  exists d',
    read_serial id d buffer
    = Done (d', data ++ replicate (Z.to_nat MESSAGE_BUFFER_SIZE - length data) NUL, false).
Proof.
  intros Hlen Hdata Hfew.
  pose proof MESSAGE_BUFFER_SIZE_eq as Hsize.
  destruct (read_serial_runs id d buffer Hlen) as (d' & Hrun & _).
  pose proof room_eq as Hroom.
  remember (Z.to_nat (MESSAGE_BUFFER_SIZE - 1)) as r eqn:Hr.
  rewrite Hdata in Hrun.
  rewrite bool_decide_eq_false_2 in Hrun by lia.
  rewrite take_ge in Hrun by lia.
  rewrite <- Hroom in Hrun.
  exists d'. exact Hrun.
Qed.

Lemma drain_join (n : nat) (id : PortId) (d : Device) (c : ascii) (l : list ascii)
    (w : list (Z * ascii)) :
  port id d = {| rx := c :: l; wire := w |} ->
  Forall (fun e => fst e <= now d + 2) w ->
  drain (S n) id d = c :: take n (l ++ List.map snd w).
Proof.
  intros Hport Hdue.
  rewrite drain_S, Hport. unfold available, ss_read. cbn [rx wire length].
  replace (0 <? Z.of_nat (S (length l))) with true by (symmetry; apply Z.ltb_lt; lia).
  rewrite to_uchar_of_ascii. f_equal.
  destruct (set_port_frame id {| rx := l; wire := w |} d) as (Hnow1 & _).
  apply drain_buffered.
  rewrite port_elapse, port_set_port, Hnow1.
  apply deliver_due. exact Hdue.
Qed.

(** The settle delay joins chunks.  Bytes that arrive within the 2 ms that
    follow the first read are part of the same frame: the buffer gets what
    the port held and then those bytes, in their order. *)
Theorem read_serial_joins_chunks (id : PortId) (d : Device) (buffer : list ascii)
    (c : ascii) (l : list ascii) (w : list (Z * ascii)) :
  Z.of_nat (length buffer) = MESSAGE_BUFFER_SIZE ->
  port id d = {| rx := c :: l; wire := w |} ->
  Forall (fun e => fst e <= now d + 2) w ->
  Z.of_nat (length (c :: l ++ List.map snd w)) < MESSAGE_BUFFER_SIZE ->
  exists d',
    read_serial id d buffer
    = Done (d',
            (c :: l ++ List.map snd w)
            ++ replicate (Z.to_nat MESSAGE_BUFFER_SIZE - length (c :: l ++ List.map snd w)) NUL,
            false).
Proof.
  intros Hlen Hport Hdue Hfew.
  pose proof MESSAGE_BUFFER_SIZE_eq as Hsize.
  apply read_serial_fits; [exact Hlen | | exact Hfew].
  unfold offered. rewrite room_eq.
  rewrite (drain_join _ id d c l w Hport Hdue).
  f_equal. apply take_ge. cbn [length] in Hfew. lia.
Qed.

Lemma read_serial_joins_chunks_witness :
  exists d',
    read_serial GPS
      (set_port GPS {| rx := list_ascii_of_string "$GP"; wire := [(1, "G"%char); (2, "A"%char)] |}
                (idle 0))
      (msgStream (idle 0))
    = Done (d',
            ("$"%char :: list_ascii_of_string "GP"
                         ++ List.map snd [(1, "G"%char); (2, "A"%char)])
            ++ replicate (Z.to_nat MESSAGE_BUFFER_SIZE
                          - length ("$"%char :: list_ascii_of_string "GP"
                                    ++ List.map snd [(1, "G"%char); (2, "A"%char)])) NUL,
            false).
Proof.
  apply (read_serial_joins_chunks GPS _ _ "$"%char (list_ascii_of_string "GP")
           [(1, "G"%char); (2, "A"%char)]).
  - vm_compute. reflexivity.
  - reflexivity.
  - repeat constructor; vm_compute; discriminate.
  - vm_compute. reflexivity.
Defined.

(** ** The C string read back from the buffer *)

Lemma c_str_before_NUL (l rest : list ascii) :
  c_str (l ++ NUL :: rest) = Done (before_NUL l).
Proof.
  induction l as [|c l IH]; simpl; [reflexivity|].
  destruct (Ascii.eqb c NUL); [reflexivity|].
  rewrite IH. reflexivity.
Qed.

Lemma before_NUL_id (l : list ascii) : NUL ∉ l -> before_NUL l = l.
Proof.
  induction l as [|c l IH]; intros Hno; simpl; [reflexivity|].
  destruct (Ascii.eqb c NUL) eqn:Hc.
  - apply Ascii.eqb_eq in Hc. subst c. exfalso. apply Hno. left.
  - f_equal. apply IH. intros Hin. apply Hno. right. exact Hin.
Qed.

(** What the scans of [sendATcommand], [display_logs] and [gps_encode] see
    after [read_serial]: the bytes offered, at most
    [MESSAGE_BUFFER_SIZE - 1] of them, up to the first NUL among them; so
    exactly those bytes when none of them is NUL. *)
Theorem read_serial_c_str (id : PortId) (d : Device) (buffer : list ascii) :
  Z.of_nat (length buffer) = MESSAGE_BUFFER_SIZE ->
  exists d' buffer' full,
    read_serial id d buffer = Done (d', buffer', full) /\
    c_str buffer'
    = Done (before_NUL (take (Z.to_nat (MESSAGE_BUFFER_SIZE - 1)) (offered id d))) /\
    (NUL ∉ offered id d ->
     c_str buffer' = Done (take (Z.to_nat (MESSAGE_BUFFER_SIZE - 1)) (offered id d))).
Proof.
  intros Hlen.
  pose proof MESSAGE_BUFFER_SIZE_eq as Hsize.
  destruct (read_serial_runs id d buffer Hlen) as (d' & Hrun & _).
  pose proof room_eq as Hroom.
  remember (Z.to_nat (MESSAGE_BUFFER_SIZE - 1)) as r eqn:Hr.
  assert (Hkept : (length (take r (offered id d)) <= r)%nat) by (rewrite length_take; lia).
  replace (S r - length (take r (offered id d)))%nat
    with (S (r - length (take r (offered id d)))) in Hrun by lia.
  cbn [replicate] in Hrun.
  eexists d', _, _. split; [exact Hrun|].
  rewrite c_str_before_NUL. split; [reflexivity|].
  intros Hno. rewrite before_NUL_id; [reflexivity|].
  intros Hin. apply Hno.
  rewrite <- (take_drop r (offered id d)).
  apply list_elem_of_In, in_or_app. left. apply list_elem_of_In. exact Hin.
Qed.

Lemma read_serial_c_str_witness :
  exists d' buffer' full,
    read_serial GPS (receiving GPS (list_ascii_of_string "$GPGGA") 0) (msgStream (idle 0))
    = Done (d', buffer', full) /\
    c_str buffer'
    = Done (before_NUL (take (Z.to_nat (MESSAGE_BUFFER_SIZE - 1))
                             (offered GPS (receiving GPS (list_ascii_of_string "$GPGGA") 0)))) /\
    (NUL ∉ offered GPS (receiving GPS (list_ascii_of_string "$GPGGA") 0) ->
     c_str buffer'
     = Done (take (Z.to_nat (MESSAGE_BUFFER_SIZE - 1))
                  (offered GPS (receiving GPS (list_ascii_of_string "$GPGGA") 0)))).
Proof.
  apply read_serial_c_str.
  vm_compute. reflexivity.
Defined.

(** ** sendATcommand in its other modes *)

(** With the fill-buffer flag true [sendATcommand] never returns, whatever
    the timeout and whatever the modem sends: the guard of its loop cannot
    fail. *)
Theorem sendATcommand_fill_never_returns (poll : Z) (String_bool : string -> bool)
    (fuel : nat) (id : PortId) (CMD : string) (_timeout : Z) (d : Device) :
  terminated (msgStream d) = true ->
  sendATcommand poll String_bool fuel id CMD _timeout true d = Spin.
Proof.
  intros Hterm. unfold sendATcommand.
  rewrite wait_loop_fill; [reflexivity|].
  cbn [msgStream emit].
  destruct (cleanSerial_frame id (emit (SerialPrintln "*********") d)) as (_ & Hmsg & _).
  rewrite Hmsg. exact Hterm.
Qed.

Lemma sendATcommand_fill_never_returns_witness :
  sendATcommand 1 (fun _ => true) 5000 GSM "AT" 4000 true
                (receiving GSM (list_ascii_of_string "OK") 0) = Spin.
Proof.
  apply sendATcommand_fill_never_returns.
  vm_compute. reflexivity.
Defined.

(** [sendATcommand] does not clear the buffer.  When nothing arrives from
    the modem after the command has gone out, whatever the port held
    before being flushed, the buffer is afterwards what it was before the
    exchange, and that old content is what is published as the answer. *)
Theorem sendATcommand_publishes_stale (poll : Z) (String_bool : string -> bool)
    (CMD : string) (T : Z) (d : Device) (fuel : nat) :
  0 < poll ->
  0 <= T ->
  T + pass_max poll < 2 ^ 32 ->
  terminated (msgStream d) = true ->
  wire (GSM_Serial d) = [] ->
  T < Z.of_nat fuel ->
  exists d' log,
    sendATcommand poll String_bool fuel GSM CMD T false d = Done d' /\
    msgStream d' = msgStream d /\
    c_str (msgStream d) = Done log /\
    last (trace d') = Some (ServerSend 200 "text/html" (SendHTML String_bool (logs_body log))).
Proof.
  intros Hpoll Ht Hwrap Hterm Hwire Hfuel.
  destruct (sendATcommand_runs poll String_bool CMD T d fuel Hpoll Ht Hwrap Hterm Hfuel)
    as (d' & log & Hrun & _ & _ & _ & Hlog & Hlast).
  destruct (sendATcommand_silent poll String_bool CMD T d d' fuel) as [_ Hmsg];
    try assumption.
  { unfold pass_max in Hwrap. pose proof MESSAGE_BUFFER_SIZE_eq. lia. }
  exists d', log. rewrite <- Hmsg. repeat split; assumption.
Qed.

Lemma sendATcommand_publishes_stale_witness :
  exists d' log,
    sendATcommand 1000 (fun _ => true) 4001 GSM "AT" 4000 false
      (set_port GSM {| rx := list_ascii_of_string "junk"; wire := [] |}
                (holding (list_ascii_of_string "$GPGGA") 0))
    = Done d' /\
    msgStream d'
    = msgStream (set_port GSM {| rx := list_ascii_of_string "junk"; wire := [] |}
                          (holding (list_ascii_of_string "$GPGGA") 0)) /\
    c_str (msgStream (set_port GSM {| rx := list_ascii_of_string "junk"; wire := [] |}
                               (holding (list_ascii_of_string "$GPGGA") 0)))
    = Done log /\
    last (trace d')
    = Some (ServerSend 200 "text/html" (SendHTML (fun _ => true) (logs_body log))).
Proof.
  apply sendATcommand_publishes_stale.
  - lia.
  - lia.
  - vm_compute. reflexivity.
  - vm_compute. reflexivity.
  - reflexivity.
  - lia.
Defined.

(** ** Sequences of commands *)

Lemma bind_ret {A : Type} (m : outcome A) : (m ≫= Done) = m.
Proof. destruct m; reflexivity. Qed.

Lemma bind_ext {A B : Type} (m : outcome A) (k k' : A -> outcome B) :
  (forall a, k a = k' a) -> (m ≫= k) = (m ≫= k').
Proof. intros Hk. destruct m; simpl; [apply Hk | reflexivity | reflexivity]. Qed.

(** Commands sent in a row: every one goes out, in order, and each takes
    its timeout at least. *)
Lemma send_all_runs (poll : Z) (String_bool : string -> bool) (fuel : nat)
    (commands : list string) :
  0 < poll ->
  default_timeout + pass_max poll < 2 ^ 32 ->
  default_timeout < Z.of_nat fuel ->
  forall d : Device,
    terminated (msgStream d) = true ->
    exists d',
      send_all poll String_bool fuel commands d = Done d' /\
      exchanges (trace d') = exchanges (trace d) ++ commands /\
      terminated (msgStream d') = true /\
      Z.of_nat (length commands) * default_timeout <= now d' - now d
      <= Z.of_nat (length commands) * (default_timeout + pass_max poll).
Proof.
  intros Hpoll Hwrap Hfuel.
  assert (Ht : 0 <= default_timeout) by (unfold default_timeout; lia).
  induction commands as [|CMD rest IH]; intros d Hterm.
  - exists d. simpl. rewrite app_nil_r. repeat split; try assumption; lia.
  - cbn [send_all]. unfold default_fill_buffer.
    destruct (sendATcommand_runs poll String_bool CMD default_timeout d fuel)
      as (d1 & log1 & Hrun1 & Hnow1 & Hex1 & Hterm1 & _); try assumption.
    rewrite Hrun1, bind_Done.
    destruct (IH d1 Hterm1) as (d' & Hrun & Hex & Hterm' & Hnow).
    exists d'. split; [exact Hrun|]. split; [|split; [exact Hterm'|]].
    + rewrite Hex, Hex1, <- app_assoc. reflexivity.
    + cbn [length]. lia.
Qed.

Lemma PUT_REQUEST_send_all (poll : Z) (String_bool : string -> bool) (fuel : nat)
    (data : string) (d : Device) :
  PUT_REQUEST poll String_bool fuel data d
  = send_all poll String_bool fuel (upload data)
      (emit (SerialPrintln data)
         (emit (SerialPrintln ("AT+QHTTPPUT=" +:+ String_of_uint (String_length data)
                               +:+ ",30,60")) d)).
Proof.
  unfold PUT_REQUEST, upload. cbn [send_all].
  apply bind_ext. intros d1. rewrite bind_ret. reflexivity.
Qed.

(** An upload blocks the program for two timeouts at least, 8 s with the
    default timeout, whatever the payload and whatever the modem answers;
    its two commands are the only ones sent. *)
Theorem PUT_REQUEST_duration (poll : Z) (String_bool : string -> bool) (fuel : nat)
    (data : string) (d : Device) :
  0 < poll ->
  default_timeout + pass_max poll < 2 ^ 32 ->
  default_timeout < Z.of_nat fuel ->
  terminated (msgStream d) = true ->
  exists d',
    PUT_REQUEST poll String_bool fuel data d = Done d' /\
    exchanges (trace d') = exchanges (trace d) ++ upload data /\
    8000 <= now d' - now d <= 8000 + 2 * pass_max poll.
Proof.
  intros Hpoll Hwrap Hfuel Hterm.
  rewrite PUT_REQUEST_send_all.
  destruct (send_all_runs poll String_bool fuel (upload data) Hpoll Hwrap Hfuel
              (emit (SerialPrintln data)
                 (emit (SerialPrintln ("AT+QHTTPPUT=" +:+ String_of_uint (String_length data)
                                       +:+ ",30,60")) d)))
    as (d' & Hrun & Hex & _ & Hnow).
  - exact Hterm.
  - exists d'. split; [exact Hrun|]. split.
    + rewrite Hex. cbn [trace emit]. rewrite !exchanges_app. simpl.
      rewrite !app_nil_r. reflexivity.
    + change (Z.of_nat (length (upload data))) with 2 in Hnow.
      cbn [now emit] in Hnow. unfold default_timeout in Hnow. lia.
Qed.

Lemma PUT_REQUEST_duration_witness :
  exists d',
    PUT_REQUEST 1000 (fun _ => true) 4001 "" (idle 0) = Done d' /\
    exchanges (trace d') = exchanges (trace (idle 0)) ++ upload "" /\
    8000 <= now d' - now (idle 0) <= 8000 + 2 * pass_max 1000.
Proof.
  apply PUT_REQUEST_duration.
  - lia.
  - vm_compute. reflexivity.
  - vm_compute. reflexivity.
  - vm_compute. reflexivity.
Defined.

Lemma enableGPRS_send_all (poll : Z) (String_bool : string -> bool) (CLOUD_URL : string)
    (fuel : nat) (d : Device) :
  enableGPRS poll String_bool CLOUD_URL fuel d
  = send_all poll String_bool fuel (gprs_commands CLOUD_URL)
      (emit (SerialPrintln "ENABLING GPRS >>>>>>") d).
Proof.
  unfold enableGPRS, gprs_commands. cbn [send_all].
  repeat (apply bind_ext; intros ?).
  rewrite bind_ret. reflexivity.
Qed.

(** [enableGPRS] sends its nine commands in the order of the source, the
    URL command carrying [CLOUD_URL] between double quotes, and takes nine
    timeouts at least: 36 s. *)
Theorem enableGPRS_sequence (poll : Z) (String_bool : string -> bool) (CLOUD_URL : string)
    (fuel : nat) (d : Device) :
  0 < poll ->
  default_timeout + pass_max poll < 2 ^ 32 ->
  default_timeout < Z.of_nat fuel ->
  terminated (msgStream d) = true ->
  exists d',
    enableGPRS poll String_bool CLOUD_URL fuel d = Done d' /\
    exchanges (trace d') = exchanges (trace d) ++ gprs_commands CLOUD_URL /\
    36000 <= now d' - now d <= 36000 + 9 * pass_max poll.
Proof.
  intros Hpoll Hwrap Hfuel Hterm.
  rewrite enableGPRS_send_all.
  destruct (send_all_runs poll String_bool fuel (gprs_commands CLOUD_URL) Hpoll Hwrap Hfuel
              (emit (SerialPrintln "ENABLING GPRS >>>>>>") d))
    as (d' & Hrun & Hex & _ & Hnow).
  - exact Hterm.
  - exists d'. split; [exact Hrun|]. split.
    + rewrite Hex. cbn [trace emit]. rewrite exchanges_app. simpl.
      rewrite app_nil_r. reflexivity.
    + change (Z.of_nat (length (gprs_commands CLOUD_URL))) with 9 in Hnow.
      cbn [now emit] in Hnow. unfold default_timeout in Hnow. lia.
Qed.

Lemma enableGPRS_sequence_witness :
  exists d',
    enableGPRS 1000 (fun _ => true) "https://example.firebaseio.com/gps.json" 4001 (idle 0)
    = Done d' /\
    exchanges (trace d')
    = exchanges (trace (idle 0)) ++ gprs_commands "https://example.firebaseio.com/gps.json" /\
    36000 <= now d' - now (idle 0) <= 36000 + 9 * pass_max 1000.
Proof.
  apply enableGPRS_sequence.
  - lia.
  - vm_compute. reflexivity.
  - vm_compute. reflexivity.
  - vm_compute. reflexivity.
Defined.

(** ** The tracker's globals and the loop *)

Section Program.

Variable poll : Z.
Variable String_double : float -> Z -> string.
Variable String_bool : string -> bool.
Variable G : Type.
Variable encode : G -> ascii -> G.
Variable isValid : G -> bool.
Variable lat : G -> float.
Variable lng : G -> float.

Local Abbreviation gps_encode' := (gps_encode poll String_double String_bool encode isValid lat lng).
Local Abbreviation poll_gps' := (poll_gps poll String_double String_bool encode isValid lat lng).
Local Abbreviation reachable' := (reachable poll String_double String_bool encode isValid lat lng).

(** What the diagnostics page relies on.  In every state the program can
    reach: while [isLocationUpdated] is true the position last reported is
    the current one, bit for bit; while it is false the "previous" position
    is the one last reported. *)
Theorem reachable_tracker_shape (w : World G) :
  reachable' w ->
  (isLocationUpdated (trk w) = true ->
   _newLat (trk w) = _lat (trk w) /\ _newLong (trk w) = _long (trk w)) /\
  (isLocationUpdated (trk w) = false ->
   _prevLat (trk w) = _newLat (trk w) /\ _prevLong (trk w) = _newLong (trk w)).
Proof.
  intros Hreach.
  induction Hreach as [d g | w d _ IH | w w' fuel _ _ Hrun].
  - split; [discriminate | intros _; split; reflexivity].
  - exact IH.
  - destruct (gps_encode_trk _ _ _ _ _ _ _ _ fuel w w' Hrun) as (frame & _ & _ & Htrk).
    rewrite Htrk. unfold track.
    destruct (changed _); cbn;
      (split; [try discriminate | try discriminate]); intros _; split; reflexivity.
Qed.

(** An updating step does not touch the "previous" position.  After two
    updating steps in a row it is still what it was before the first, not
    the position the first one reported. *)
Theorem gps_encode_prev_kept (fuel fuel2 : nat) (w w1 w2 : World G) (d2 : Device) :
  gps_encode' fuel w = Done w1 ->
  gps_encode' fuel2 (set_dev d2 w1) = Done w2 ->
  isLocationUpdated (trk w1) = true ->
  isLocationUpdated (trk w2) = true ->
  _prevLat (trk w2) = _prevLat (trk w) /\
  _prevLong (trk w2) = _prevLong (trk w) /\
  _newLat (trk w1) = _lat (trk w1) /\
  _newLong (trk w1) = _long (trk w1).
Proof.
  intros Hrun1 Hrun2 Hup1 Hup2.
  destruct (gps_encode_trk _ _ _ _ _ _ _ _ fuel w w1 Hrun1) as (frame1 & _ & _ & Htrk1).
  destruct (gps_encode_trk _ _ _ _ _ _ _ _ fuel2 _ w2 Hrun2) as (frame2 & _ & _ & Htrk2).
  cbn [trk set_dev gps] in Htrk2.
  rewrite Htrk2 in Hup2 |- *. rewrite Htrk1 in Hup1, Hup2 |- *.
  clear Htrk1 Htrk2.
  unfold track in *.
  destruct (changed (located isValid lat lng (decode encode frame1 (gps w)) (trk w)));
    [|discriminate Hup1].
  match type of Hup2 with
  | context [changed ?t] => destruct (changed t); [|discriminate Hup2]
  end.
  unfold located.
  destruct (isValid (decode encode frame2 (gps w1)));
    destruct (isValid (decode encode frame1 (gps w))); cbn; repeat split; reflexivity.
Qed.

(** A GPS reading that takes place.  When bytes are waiting on the GPS port
    and more than 10 s have passed since the last reading, the decoder is
    fed the bytes the port offers, at most [MESSAGE_BUFFER_SIZE - 1] of them
    and up to the first NUL, the tracker takes its step on the result, and
    no further reading takes place for the next 10 s, counted from the end
    of this one. *)
Theorem poll_gps_fires (fuel : nat) (p : Program G) :
  0 < poll ->
  default_timeout + pass_max poll < 2 ^ 32 ->
  default_timeout < Z.of_nat fuel ->
  terminated (msgStream (dev (world p))) = true ->
  available (GPS_Serial (dev (world p))) <> 0 ->
  10000 < (millis (dev (world p)) - last_gps_read p) mod 2 ^ 32 ->
  exists p',
    poll_gps' fuel p = Done p' /\
    gps (world p')
    = decode encode
        (before_NUL (take (Z.to_nat (MESSAGE_BUFFER_SIZE - 1)) (offered GPS (dev (world p)))))
        (gps (world p)) /\
    trk (world p') = track isValid lat lng (gps (world p')) (trk (world p)) /\
    forall (d2 : Device) (fuel2 : nat),
      0 <= now d2 - now (dev (world p')) <= 10000 ->
      poll_gps' fuel2 {| world := set_dev d2 (world p'); last_gps_read := last_gps_read p' |}
      = Done {| world := set_dev d2 (world p'); last_gps_read := last_gps_read p' |}.
Proof.
  intros Hpoll Hwrap Hfuel Hterm Hav Hdue.
  pose proof MESSAGE_BUFFER_SIZE_eq as Hsize.
  unfold poll_gps.
  replace (negb (available (GPS_Serial (dev (world p))) =? 0)) with true
    by (symmetry; apply negb_true_iff, Z.eqb_neq; exact Hav).
  replace (10000 <? (millis (dev (world p)) - last_gps_read p) mod 2 ^ 32) with true
    by (symmetry; apply Z.ltb_lt; exact Hdue).
  cbn [andb].
  assert (Hlen : Z.of_nat (length (msgStream (dev (world p)))) = MESSAGE_BUFFER_SIZE).
  { unfold terminated in Hterm. apply andb_true_iff in Hterm as [Hl _].
    apply Z.eqb_eq in Hl. exact Hl. }
  destruct (read_serial_runs GPS (dev (world p)) _ Hlen) as (d1 & Hread & _).
  pose proof (read_serial_terminated _ _ _ _ _ _ Hlen Hread) as Hterm1.
  pose proof room_eq as Hroom.
  remember (Z.to_nat (MESSAGE_BUFFER_SIZE - 1)) as r eqn:Hr.
  assert (Hkept : (length (take r (offered GPS (dev (world p)))) <= r)%nat)
    by (rewrite length_take; lia).
  replace (S r - length (take r (offered GPS (dev (world p)))))%nat
    with (S (r - length (take r (offered GPS (dev (world p)))))) in Hread, Hterm1 by lia.
  cbn [replicate] in Hread, Hterm1.
  rewrite Hread, bind_Done.
  match goal with
  | |- context [gps_encode _ _ _ _ _ _ _ fuel ?w1] =>
      destruct (gps_encode_runs poll String_double String_bool G encode isValid lat lng
                  fuel w1 Hpoll Hwrap Hterm1 Hfuel)
        as (frame & w' & Hframe & Hrun & Hg & Htrk & _)
  end.
  cbn [dev set_dev msgStream set_msgStream gps trk] in Hframe, Hg, Htrk.
  rewrite c_str_before_NUL in Hframe. injection Hframe as <-.
  rewrite Hrun, bind_Done.
  eexists. split; [reflexivity|]. cbn [world last_gps_read].
  split; [exact Hg|]. split; [exact Htrk|].
  intros d2 fuel2 Hsoon.
  unfold poll_gps. cbn [world last_gps_read dev set_dev].
  replace (10000 <? (millis d2 - millis (dev w') mod 2 ^ 32) mod 2 ^ 32) with false.
  - rewrite andb_false_r. reflexivity.
  - symmetry. apply Z.ltb_ge.
    unfold millis at 2. rewrite Zmod_mod.
    change ((millis d2 - now (dev w') mod 2 ^ 32) mod 2 ^ 32)
      with (elapsed d2 (now (dev w') mod 2 ^ 32)).
    rewrite elapsed_eq by lia. lia.
Qed.

End Program.

Lemma reachable_tracker_shape_witness :
  (isLocationUpdated (trk (reported "$+")) = true ->
   _newLat (trk (reported "$+")) = _lat (trk (reported "$+")) /\
   _newLong (trk (reported "$+")) = _long (trk (reported "$+"))) /\
  (isLocationUpdated (trk (reported "$+")) = false ->
   _prevLat (trk (reported "$+")) = _newLat (trk (reported "$+")) /\
   _prevLong (trk (reported "$+")) = _newLong (trk (reported "$+"))).
Proof.
  apply (reachable_tracker_shape 1000 fixed_point (fun _ => true) TestGps
           test_encode fix_seen test_lat test_lng (reported "$+")).
  exact (reported_reachable "$+").
Defined.

Lemma gps_encode_prev_kept_witness :
  exists w1 w2,
    test_gps_encode 4001 (booted "$GPGGA") = Done w1 /\
    test_gps_encode 4001 (set_dev (holding (list_ascii_of_string "+") 30000) w1) = Done w2 /\
    _newLat (trk w1) = sample_lat /\
    _newLat (trk w2) = next_up sample_lat /\
    _prevLat (trk w2) = _prevLat (trk (booted "$GPGGA")) /\
    _prevLong (trk w2) = _prevLong (trk (booted "$GPGGA")) /\
    _newLat (trk w1) = _lat (trk w1) /\
    _newLong (trk w1) = _long (trk w1).
Proof.
  destruct (gps_encode_runs 1000 fixed_point (fun _ => true) TestGps
              test_encode fix_seen test_lat test_lng 4001 (booted "$GPGGA"))
    as (frame1 & w1 & Hframe1 & Hrun1 & Hg1 & Htrk1 & _).
  - lia.
  - vm_compute. reflexivity.
  - vm_compute. reflexivity.
  - vm_compute. reflexivity.
  - assert (Hf1 : c_str (msgStream (dev (booted "$GPGGA")))
                  = Done (list_ascii_of_string "$GPGGA")) by (vm_compute; reflexivity).
    rewrite Hf1 in Hframe1. injection Hframe1 as <-.
    rewrite Hg1 in Htrk1.
    destruct (gps_encode_runs 1000 fixed_point (fun _ => true) TestGps
                test_encode fix_seen test_lat test_lng 4001
                (set_dev (holding (list_ascii_of_string "+") 30000) w1))
      as (frame2 & w2 & Hframe2 & Hrun2 & Hg2 & Htrk2 & _).
    + lia.
    + vm_compute. reflexivity.
    + vm_compute. reflexivity.
    + vm_compute. reflexivity.
    + assert (Hf2 : c_str (msgStream (dev (set_dev (holding (list_ascii_of_string "+") 30000) w1)))
                    = Done (list_ascii_of_string "+")) by (vm_compute; reflexivity).
      rewrite Hf2 in Hframe2. injection Hframe2 as <-.
      cbn [gps trk set_dev] in Hg2, Htrk2. rewrite Hg2, Hg1, Htrk1 in Htrk2.
      exists w1, w2.
      split; [exact Hrun1|]. split; [exact Hrun2|].
      split; [rewrite Htrk1; vm_compute; reflexivity|].
      split; [rewrite Htrk2; vm_compute; reflexivity|].
      apply (gps_encode_prev_kept 1000 fixed_point (fun _ => true) TestGps
               test_encode fix_seen test_lat test_lng 4001 4001 (booted "$GPGGA") w1 w2
               (holding (list_ascii_of_string "+") 30000)).
      * exact Hrun1.
      * exact Hrun2.
      * rewrite Htrk1. vm_compute. reflexivity.
      * rewrite Htrk2. vm_compute. reflexivity.
Defined.

Lemma poll_gps_fires_witness :
  exists p',
    test_poll_gps 4001 (polling "$GPGGA") = Done p' /\
    gps (world p')
    = decode test_encode
        (before_NUL (take (Z.to_nat (MESSAGE_BUFFER_SIZE - 1))
                          (offered GPS (dev (world (polling "$GPGGA"))))))
        (gps (world (polling "$GPGGA"))) /\
    trk (world p')
    = track fix_seen test_lat test_lng (gps (world p')) (trk (world (polling "$GPGGA"))) /\
    forall (d2 : Device) (fuel2 : nat),
      0 <= now d2 - now (dev (world p')) <= 10000 ->
      test_poll_gps fuel2 {| world := set_dev d2 (world p'); last_gps_read := last_gps_read p' |}
      = Done {| world := set_dev d2 (world p'); last_gps_read := last_gps_read p' |}.
Proof.
  apply (poll_gps_fires 1000 fixed_point (fun _ => true) TestGps
           test_encode fix_seen test_lat test_lng 4001 (polling "$GPGGA")).
  - lia.
  - vm_compute. reflexivity.
  - vm_compute. reflexivity.
  - vm_compute. reflexivity.
  - vm_compute. discriminate.
  - vm_compute. reflexivity.
Defined.

(** ** The diagnostics page *)

(** The page shows no current position when the latitude or the longitude
    is zero: a position on the equator or on the prime meridian gives the
    page that no position at all gives. *)
Theorem gps_status_hides_zero (String_double : float -> Z -> string) (t : Tracker) :
  (_lat t =? 0)%float = true \/ (_long t =? 0)%float = true ->
  gps_status_data String_double t = gps_status_data String_double (set_current 0 0 t).
Proof.
  intros Hzero. unfold gps_status_data.
  assert (Hcond : fne (_lat t) 0 && fne (_long t) 0 = false).
  { unfold fne. destruct Hzero as [H|H]; rewrite H; simpl;
      [reflexivity | apply andb_false_r]. }
  rewrite Hcond. reflexivity.
Qed.

Lemma gps_status_hides_zero_witness :
  gps_status_data fixed_point
    {| _lat := 0; _long := sample_lng; _prevLat := 0; _prevLong := 0;
       _newLat := 0; _newLong := sample_lng; isLocationUpdated := true |}
  = gps_status_data fixed_point
      (set_current 0 0
         {| _lat := 0; _long := sample_lng; _prevLat := 0; _prevLong := 0;
            _newLat := 0; _newLong := sample_lng; isLocationUpdated := true |}).
Proof.
  apply gps_status_hides_zero.
  left. reflexivity.
Defined.

(** ** The buffer always holds a C string *)

Lemma capture_terminated (id : PortId) (d d1 : Device) :
  terminated (msgStream d) = true ->
  capture id d = Done d1 ->
  terminated (msgStream d1) = true.
Proof.
  intros Hterm Hcap.
  destruct (capture_runs id d Hterm) as (d1' & Hcap' & Hterm1 & _).
  rewrite Hcap in Hcap'. injection Hcap' as <-. exact Hterm1.
Qed.

Lemma wait_loop_terminated (poll send_time _timeout : Z) (id : PortId) (flag : bool)
    (fuel : nat) :
  forall d d' : Device,
    terminated (msgStream d) = true ->
    wait_loop poll fuel id d send_time _timeout flag = Done d' ->
    terminated (msgStream d') = true.
Proof.
  induction fuel as [|fuel IH]; intros d d' Hterm Hrun; [discriminate|].
  cbn [wait_loop] in Hrun.
  destruct (capture id d) as [d1| |] eqn:Hcap; try discriminate.
  rewrite bind_Done in Hrun. cbv zeta in Hrun.
  pose proof (capture_terminated id d d1 Hterm Hcap) as Hterm1.
  destruct (keep_waiting _ _ _).
  - apply (IH (elapse poll d1) d'); [exact Hterm1 | exact Hrun].
  - injection Hrun as <-. exact Hterm1.
Qed.

(** Whatever the port, the timeout, the flag and the traffic, an exchange
    that ends leaves [msgStream] with its [MESSAGE_BUFFER_SIZE] cells and a
    NUL among them, so that the scans of the buffer that follow stop inside
    it.  *)
Theorem sendATcommand_keeps_terminated (poll : Z) (String_bool : string -> bool)
    (fuel : nat) (id : PortId) (CMD : string) (_timeout : Z) (flag : bool) (d d' : Device) :
  terminated (msgStream d) = true ->
  sendATcommand poll String_bool fuel id CMD _timeout flag d = Done d' ->
  terminated (msgStream d') = true /\
  exists log, c_str (msgStream d') = Done log.
Proof.
  intros Hterm Hrun. unfold sendATcommand in Hrun.
  destruct (wait_loop _ _ _ _ _ _ _) as [d1| |] eqn:Hwait; try discriminate.
  rewrite bind_Done in Hrun.
  assert (Hterm1 : terminated (msgStream d1) = true).
  { eapply wait_loop_terminated; [|exact Hwait].
    cbn [msgStream emit].
    destruct (cleanSerial_frame id (emit (SerialPrintln "*********") d)) as (_ & Hmsg & _).
    rewrite Hmsg. exact Hterm. }
  destruct (c_str (msgStream d1)) as [log| |] eqn:Hlog; try discriminate.
  rewrite bind_Done in Hrun.
  destruct (echo_frame log d1) as (_ & He2 & _).
  unfold display_logs in Hrun. rewrite He2, Hlog, bind_Done in Hrun.
  injection Hrun as <-. cbn [msgStream emit]. rewrite He2.
  split; [exact Hterm1 | exists log; exact Hlog].
Qed.

Lemma sendATcommand_keeps_terminated_witness :
  exists d',
    sendATcommand 1000 (fun _ => true) 4001 GSM "AT" 4000 false
                  (receiving GSM (list_ascii_of_string "OK") 0) = Done d' /\
    terminated (msgStream d') = true /\
    exists log, c_str (msgStream d') = Done log.
Proof.
  destruct (sendATcommand_runs 1000 (fun _ => true) "AT" 4000
              (receiving GSM (list_ascii_of_string "OK") 0) 4001)
    as (d' & _ & Hrun & _).
  - lia.
  - lia.
  - vm_compute. reflexivity.
  - vm_compute. reflexivity.
  - lia.
  - exists d'. split; [exact Hrun|].
    apply (sendATcommand_keeps_terminated 1000 (fun _ => true) 4001 GSM "AT" 4000 false
             (receiving GSM (list_ascii_of_string "OK") 0) d').
    + vm_compute. reflexivity.
    + exact Hrun.
Defined.

(** * The timing of an exchange and its answer *)

Lemma capture_skips (id : PortId) (d : Device) :
  negb (available (port id d) =? 0) = false -> capture id d = Done d.
Proof. intros Hnone. unfold capture. rewrite Hnone. reflexivity. Qed.

(** A pass that finds bytes leaves in the buffer the C string of the frame
    it read. *)
Lemma capture_reads (id : PortId) (d : Device) :
  negb (available (port id d) =? 0) = true ->
  terminated (msgStream d) = true ->
  exists d1,
    capture id d = Done d1 /\
    terminated (msgStream d1) = true /\
    c_str (msgStream d1)
    = Done (before_NUL (take (Z.to_nat (MESSAGE_BUFFER_SIZE - 1)) (offered id d))).
Proof.
  intros Hsome Hterm.
  pose proof MESSAGE_BUFFER_SIZE_eq as Hsize.
  assert (Hlen : Z.of_nat (length (msgStream d)) = MESSAGE_BUFFER_SIZE).
  { unfold terminated in Hterm. apply andb_true_iff in Hterm as [Hl _].
    apply Z.eqb_eq in Hl. exact Hl. }
  destruct (read_serial_runs id d (msgStream d) Hlen) as (d' & Hread & _).
  pose proof (read_serial_terminated _ _ _ _ _ _ Hlen Hread) as Hterm'.
  unfold capture. rewrite Hsome, Hread, bind_Done.
  eexists. split; [reflexivity|]. cbn [msgStream set_msgStream].
  split; [exact Hterm'|].
  pose proof room_eq as Hroom.
  remember (Z.to_nat (MESSAGE_BUFFER_SIZE - 1)) as r eqn:Hr.
  assert (Hkept : (length (take r (offered id d)) <= r)%nat) by (rewrite length_take; lia).
  replace (S r - length (take r (offered id d)))%nat
    with (S (r - length (take r (offered id d)))) by lia.
  cbn [replicate]. apply c_str_before_NUL.
Qed.

(** The buffer when the wait loop ends holds the C string of the last frame
    read during the wait; it is untouched when no frame was read. *)
Lemma wait_loop_captures (poll send_time _timeout : Z) (id : PortId) (flag : bool)
    (fuel : nat) :
  forall d d' : Device,
    terminated (msgStream d) = true ->
    wait_loop poll fuel id d send_time _timeout flag = Done d' ->
    match last (captures poll fuel id d send_time _timeout flag) with
    | Some bytes => c_str (msgStream d') = Done (before_NUL bytes)
    | None => msgStream d' = msgStream d
    end.
Proof.
  induction fuel as [|fuel IH]; intros d d' Hterm Hrun; [discriminate|].
  cbn [wait_loop captures] in *.
  destruct (negb (available (port id d) =? 0)) eqn:Hav.
  - destruct (capture_reads id d Hav Hterm) as (d1 & Hcap & Hterm1 & Hstr).
    rewrite Hcap in *. rewrite bind_Done in Hrun. cbv zeta in *.
    destruct (keep_waiting _ _ _).
    + specialize (IH (elapse poll d1) d' Hterm1 Hrun).
      rewrite last_app.
      destruct (last (captures poll fuel id (elapse poll d1) send_time _timeout flag)).
      * exact IH.
      * cbn [last]. rewrite IH. exact Hstr.
    + injection Hrun as <-. cbn [last]. exact Hstr.
  - rewrite (capture_skips id d Hav) in *. rewrite bind_Done in Hrun. cbv zeta in *.
    destruct (keep_waiting _ _ _).
    + specialize (IH (elapse poll d) d' Hterm Hrun). cbn [app].
      destruct (last (captures poll fuel id (elapse poll d) send_time _timeout flag));
        exact IH.
    + injection Hrun as <-. reflexivity.
Qed.

(** C7, as the code has it.  A command with the fill-buffer flag false and
    a timeout [T] that leaves room for one pass of the wait loop before the
    32-bit difference [millis() - send_time] wraps: whatever the modem sends
    or fails to send, [sendATcommand] returns, between [T] and
    [T + pass_max poll] ms after the send, the longest pass being one poll
    and one full [read_serial], and within [T + poll] when the modem sends
    nothing.  The command has gone out once, and when frames were read
    during the wait the last of them, as a C string, is what is published
    as the answer. *)
Theorem sendATcommand_timeout (poll : Z) (String_bool : string -> bool) (CMD : string)
    (T : Z) (d : Device) (fuel : nat) :
  0 < poll ->
  0 <= T ->
  T + pass_max poll < 2 ^ 32 ->
  terminated (msgStream d) = true ->
  T < Z.of_nat fuel ->
  exists d' log,
    sendATcommand poll String_bool fuel GSM CMD T false d = Done d' /\
    T <= now d' - now d <= T + pass_max poll /\
    (wire (GSM_Serial d) = [] -> now d' - now d <= T + poll) /\
    exchanges (trace d') = exchanges (trace d) ++ [CMD] /\
    last (trace d') = Some (ServerSend 200 "text/html" (SendHTML String_bool (logs_body log))) /\
    forall bytes : list ascii,
      last (received poll fuel CMD T d) = Some bytes -> log = before_NUL bytes.
Proof.
  intros Hpoll Ht Hwrap Hterm Hfuel.
  destruct (sendATcommand_runs poll String_bool CMD T d fuel Hpoll Ht Hwrap Hterm Hfuel)
    as (d' & log & Hrun & Hnow & Hex & _ & Hlog & Hlast).
  exists d', log. split; [exact Hrun|]. split; [exact Hnow|]. split; [|split; [exact Hex|]].
  - intros Hwire.
    apply (sendATcommand_silent poll String_bool CMD T d d' fuel); try assumption.
    unfold pass_max in Hwrap. pose proof MESSAGE_BUFFER_SIZE_eq. lia.
  - split; [exact Hlast|].
    intros bytes Hbytes.
    unfold sendATcommand in Hrun. fold (sent GSM CMD d) in Hrun.
    destruct (wait_loop poll fuel GSM (sent GSM CMD d) (millis (sent GSM CMD d)) T false)
      as [d1| |] eqn:Hwait; try discriminate.
    rewrite bind_Done in Hrun.
    assert (Hterm0 : terminated (msgStream (sent GSM CMD d)) = true) by exact Hterm.
    pose proof (wait_loop_captures _ _ _ _ _ _ _ _ Hterm0 Hwait) as Hcapt.
    unfold received in Hbytes. rewrite Hbytes in Hcapt.
    rewrite Hcapt, bind_Done in Hrun.
    destruct (echo_frame (before_NUL bytes) d1) as (_ & He2 & _).
    unfold display_logs in Hrun. rewrite He2, Hcapt, bind_Done in Hrun.
    injection Hrun as <-. cbn [msgStream emit] in Hlog.
    rewrite He2, Hcapt in Hlog. injection Hlog as <-. reflexivity.
Qed.

(** More fuel does not change what the wait loop returns. *)
Lemma wait_loop_fuel (poll send_time _timeout : Z) (id : PortId) (flag : bool) (fuel : nat) :
  forall (fuel' : nat) (d d1 d2 : Device),
    wait_loop poll fuel id d send_time _timeout flag = Done d1 ->
    wait_loop poll fuel' id d send_time _timeout flag = Done d2 ->
    d1 = d2.
Proof.
  induction fuel as [|fuel IH]; intros fuel' d d1 d2 Hrun1 Hrun2; [discriminate|].
  destruct fuel' as [|fuel']; [discriminate|].
  cbn [wait_loop] in *.
  destruct (capture id d) as [d0| |]; try discriminate.
  rewrite bind_Done in *. cbv zeta in *.
  destruct (keep_waiting _ _ _).
  - exact (IH fuel' _ _ _ Hrun1 Hrun2).
  - congruence.
Qed.

(** The clock when [sendATcommand] returns is the clock when its wait loop ends. *)
Lemma sendATcommand_waits (poll : Z) (String_bool : string -> bool) (fuel : nat)
    (id : PortId) (CMD : string) (T : Z) (flag : bool) (d d' : Device) :
  sendATcommand poll String_bool fuel id CMD T flag d = Done d' ->
  exists d1,
    wait_loop poll fuel id (sent id CMD d) (millis (sent id CMD d)) T flag = Done d1 /\
    now d' = now d1.
Proof.
  unfold sendATcommand. fold (sent id CMD d). intros Hrun.
  destruct (wait_loop poll fuel id (sent id CMD d) (millis (sent id CMD d)) T flag)
    as [d1| |]; try discriminate.
  rewrite bind_Done in Hrun.
  destruct (c_str (msgStream d1)) as [s| |]; try discriminate.
  rewrite bind_Done in Hrun. unfold display_logs in Hrun.
  destruct (c_str (msgStream (echo s d1))) as [log| |]; try discriminate.
  rewrite bind_Done in Hrun. injection Hrun as <-.
  exists d1. split; [reflexivity|].
  destruct (echo_frame s d1) as (Hnow & _). exact Hnow.
Qed.

(** An answer that starts 1 ms before a timeout of 10 ms: the pass that
    reads it ends 8202 ms after the send. *)
Lemma late_read :
  (d1 ← wait_loop 1 11 GSM (sent GSM "AT" (streaming 9))
                  (millis (sent GSM "AT" (streaming 9))) 10 false;
   Done (now d1))
  = Done 8202.
Proof. vm_compute. reflexivity. Qed.

Lemma stream_later (t u : Z) : u < t -> Forall (fun e => u < fst e) (stream t).
Proof.
  intros Hlt. unfold stream. apply Forall_forall. intros e He.
  apply list_elem_of_In, in_map_iff in He as (i & <- & _). simpl. lia.
Qed.

Lemma wrap_waiting_sent : sent GSM "AT" (streaming (wrap_timeout - 1)) = wrap_waiting 0.
Proof. reflexivity. Qed.

Lemma wrap_waiting_skips (t : Z) : capture GSM (wrap_waiting t) = Done (wrap_waiting t).
Proof. reflexivity. Qed.

Lemma wrap_waiting_elapse (t : Z) :
  t + 1 < wrap_timeout - 1 -> elapse 1 (wrap_waiting t) = wrap_waiting (t + 1).
Proof.
  intros Hlt. unfold elapse, wrap_waiting. cbn [now GSM_Serial GPS_Serial Serial_rx msgStream trace].
  rewrite (deliver_later _ _ _ (stream_later _ _ Hlt)). reflexivity.
Qed.

(** The pass in which the answer is read ends as the 32-bit clock wraps. *)
Lemma wrap_read :
  (d1 ← capture GSM (elapse 1 (wrap_waiting (wrap_timeout - 2)));
   Done (now (elapse 1 d1), port GSM (elapse 1 d1)))
  = Done (2 ^ 32, idle_port).
Proof. vm_compute. reflexivity. Qed.

(** Past the wrap, with the modem silent again, the loop ends only when the
    clock has gone round to the timeout once more. *)
Lemma wait_loop_wrapped (fuel : nat) :
  forall d d' : Device,
    port GSM d = idle_port ->
    2 ^ 32 <= now d < 2 ^ 32 + wrap_timeout ->
    wait_loop 1 fuel GSM d 0 wrap_timeout false = Done d' ->
    2 ^ 32 + wrap_timeout <= now d'.
Proof.
  induction fuel as [|fuel IH]; intros d d' Hidle Hnow Hrun; [discriminate|].
  cbn [wait_loop] in Hrun.
  rewrite (capture_idle GSM d Hidle), bind_Done in Hrun. cbv zeta in Hrun.
  assert (Hnow2 : now (elapse 1 d) = now d + 1) by reflexivity.
  assert (Hidle2 : port GSM (elapse 1 d) = idle_port).
  { rewrite port_elapse, Hidle. apply deliver_idle. }
  assert (Hel : elapsed (elapse 1 d) 0 = now d + 1 - 2 ^ 32).
  { unfold elapsed, millis. rewrite Z.sub_0_r, Zmod_mod, Hnow2.
    unfold wrap_timeout in Hnow. change (2 ^ 32) with 4294967296 in *.
    replace (now d + 1) with (now d + 1 - 4294967296 + 1 * 4294967296) at 1 by lia.
    rewrite Z.mod_add by lia. apply Z.mod_small. lia. }
  unfold keep_waiting in Hrun. rewrite Hel, orb_false_r in Hrun.
  destruct (now d + 1 - 2 ^ 32 <? wrap_timeout) eqn:Hlt.
  - apply Z.ltb_lt in Hlt. apply (IH (elapse 1 d) d' Hidle2); [lia | exact Hrun].
  - apply Z.ltb_ge in Hlt. injection Hrun as <-. lia.
Qed.

Lemma wait_loop_S (poll : Z) (fuel : nat) (id : PortId) (d : Device)
    (send_time _timeout : Z) (flag : bool) :
  wait_loop poll (S fuel) id d send_time _timeout flag
  = (d1 ← capture id d;
     if keep_waiting (elapsed (elapse poll d1) send_time) _timeout flag
     then wait_loop poll fuel id (elapse poll d1) send_time _timeout flag
     else Done (elapse poll d1)).
Proof. reflexivity. Qed.

Lemma bind_Done_inv {A B : Type} (m : outcome A) (k : A -> outcome B) (b : B) :
  (m ≫= k) = Done b -> exists a, m = Done a /\ k a = Done b.
Proof. destruct m as [a| |]; simpl; intros Hk; [exists a; auto | discriminate | discriminate]. Qed.

(** A pass that ends as the 32-bit clock wraps starts the wait again. *)
Lemma wait_loop_wraps_pass (fuel : nat) (d d1 d' : Device) :
  capture GSM d = Done d1 ->
  now (elapse 1 d1) = 2 ^ 32 ->
  port GSM (elapse 1 d1) = idle_port ->
  wait_loop 1 (S fuel) GSM d 0 wrap_timeout false = Done d' ->
  2 ^ 32 + wrap_timeout <= now d'.
Proof.
  intros Hcap Hnow1 Hport1 Hrun.
  rewrite wait_loop_S, Hcap, bind_Done in Hrun.
  assert (Hel1 : elapsed (elapse 1 d1) 0 = 0).
  { unfold elapsed, millis. rewrite Hnow1. reflexivity. }
  unfold keep_waiting in Hrun. rewrite Hel1 in Hrun.
  change (0 <? wrap_timeout) with true in Hrun. cbn [orb] in Hrun.
  apply (wait_loop_wrapped fuel (elapse 1 d1) d' Hport1); [|exact Hrun].
  rewrite Hnow1. unfold wrap_timeout. lia.
Qed.

Lemma wrap_waiting_now (t : Z) : now (elapse 1 (wrap_waiting t)) = t + 1.
Proof. reflexivity. Qed.

Lemma wait_loop_wraps (fuel : nat) :
  forall (t : Z) (d' : Device),
    0 <= t < wrap_timeout - 1 ->
    wait_loop 1 fuel GSM (wrap_waiting t) 0 wrap_timeout false = Done d' ->
    2 ^ 32 + wrap_timeout <= now d'.
Proof.
  induction fuel as [|fuel IH]; intros t d' Ht Hrun; [discriminate|].
  rewrite wait_loop_S, wrap_waiting_skips, bind_Done in Hrun.
  assert (Hel : elapsed (elapse 1 (wrap_waiting t)) 0 = t + 1).
  { unfold elapsed, millis. rewrite Z.sub_0_r, Zmod_mod, wrap_waiting_now.
    unfold wrap_timeout in Ht. change (2 ^ 32) with 4294967296. apply Z.mod_small. lia. }
  unfold keep_waiting in Hrun. rewrite Hel, orb_false_r in Hrun.
  assert (Hlt : (t + 1 <? wrap_timeout) = true) by (apply Z.ltb_lt; lia).
  rewrite Hlt in Hrun.
  destruct (Z.eq_dec (t + 1) (wrap_timeout - 1)) as [Hlast|Hmore].
  - replace t with (wrap_timeout - 2) in Hrun by lia.
    destruct fuel as [|fuel]; [discriminate|].
    destruct (bind_Done_inv _ _ _ wrap_read) as (d1 & Hcap & Hends).
    apply (wait_loop_wraps_pass fuel _ d1 d' Hcap); [congruence | congruence | exact Hrun].
  - rewrite wrap_waiting_elapse in Hrun by lia.
    apply (IH (t + 1) d'); [lia | exact Hrun].
Qed.

Lemma wrap_waiting_millis : millis (wrap_waiting 0) = 0.
Proof. reflexivity. Qed.

Lemma streaming_now (t : Z) : now (streaming t) = 0.
Proof. reflexivity. Qed.

Lemma streaming_terminated (t : Z) : terminated (msgStream (streaming t)) = true.
Proof. vm_compute. reflexivity. Qed.

(** With nothing from the modem the frame read from the GPS before the
    exchange is what is published. *)
Lemma stale_read :
  (d' ← sendATcommand 1 (fun _ => true) 11 GSM "AT" 10 false
                      (holding (list_ascii_of_string "$GPGGA") 0);
   Done (last (trace d')))
  = Done (Some (ServerSend 200 "text/html"
                  (SendHTML (fun _ => true)
                            (logs_body (list_ascii_of_string "$GPGGA"))))).
Proof. vm_compute. reflexivity. Qed.

Lemma sendATcommand_timeout_witness :
  exists d' log,
    sendATcommand 1 (fun _ => true) 4001 GSM "AT" 4000 false prompt_reply = Done d' /\
    4000 <= now d' - now prompt_reply <= 4000 + pass_max 1 /\
    (wire (GSM_Serial prompt_reply) = [] -> now d' - now prompt_reply <= 4000 + 1) /\
    exchanges (trace d') = exchanges (trace prompt_reply) ++ ["AT"] /\
    last (trace d')
    = Some (ServerSend 200 "text/html" (SendHTML (fun _ => true) (logs_body log))) /\
    forall bytes : list ascii,
      last (received 1 4001 "AT" 4000 prompt_reply) = Some bytes -> log = before_NUL bytes.
Proof.
  apply (sendATcommand_timeout 1 (fun _ => true) "AT" 4000 prompt_reply 4001).
  - lia.
  - lia.
  - vm_compute. reflexivity.
  - vm_compute. reflexivity.
  - lia.
Defined.

(** C7, as the claim states it, fails; the poll is 1 ms, so that the loop
    sees every value of the clock.  An answer that starts 1 ms before a
    timeout of 10 ms and comes one byte every 2 ms keeps [read_serial] busy
    until the buffer is full: [sendATcommand] returns 8202 ms after the
    send, not within 10 + 1.  With a timeout 8192 ms short of 2^32 ms the
    same answer makes the 32-bit elapsed time wrap during the read, and
    [sendATcommand] does not return within the timeout and one pass.  With
    nothing from the modem, what is published is not the empty capture but
    the frame that the buffer held before the exchange. *)
Lemma sendATcommand_overruns :
  (exists d' : Device,
     sendATcommand 1 (fun _ => true) 11 GSM "AT" 10 false (streaming 9) = Done d' /\
     now d' - now (streaming 9) = 8202) /\
  (~ exists (fuel : nat) (d' : Device),
       sendATcommand 1 (fun _ => true) fuel GSM "AT" 10 false (streaming 9) = Done d' /\
       now d' - now (streaming 9) <= 10 + 1) /\
  (~ exists (fuel : nat) (d' : Device),
       sendATcommand 1 (fun _ => true) fuel GSM "AT" wrap_timeout false
                     (streaming (wrap_timeout - 1)) = Done d' /\
       now d' - now (streaming (wrap_timeout - 1)) <= wrap_timeout + pass_max 1) /\
  (exists d' : Device,
     sendATcommand 1 (fun _ => true) 11 GSM "AT" 10 false
                   (holding (list_ascii_of_string "$GPGGA") 0) = Done d' /\
     received 1 11 "AT" 10 (holding (list_ascii_of_string "$GPGGA") 0) = [] /\
     last (trace d')
     = Some (ServerSend 200 "text/html"
               (SendHTML (fun _ => true) (logs_body (list_ascii_of_string "$GPGGA"))))).
Proof.
  destruct (bind_Done_inv _ _ _ late_read) as (d0 & Hwait0 & Hnow0).
  assert (Hlate : forall (fuel : nat) (d' : Device),
             sendATcommand 1 (fun _ => true) fuel GSM "AT" 10 false (streaming 9) = Done d' ->
             now d' - now (streaming 9) = 8202).
  { intros fuel d' Hrun.
    destruct (sendATcommand_waits _ _ _ _ _ _ _ _ _ Hrun) as (d1 & Hwait1 & Hnow1).
    rewrite (wait_loop_fuel _ _ _ _ _ _ _ _ _ _ Hwait1 Hwait0) in Hnow1.
    rewrite Hnow1, streaming_now. injection Hnow0 as ->. reflexivity. }
  split; [|split; [|split]].
  - destruct (sendATcommand_runs 1 (fun _ => true) "AT" 10 (streaming 9) 11)
      as (d' & _ & Hrun & _); try lia.
    + vm_compute. reflexivity.
    + apply streaming_terminated.
    + exists d'. split; [exact Hrun | exact (Hlate _ _ Hrun)].
  - intros (fuel & d' & Hrun & Hle). rewrite (Hlate _ _ Hrun) in Hle. lia.
  - intros (fuel & d' & Hrun & Hle).
    destruct (sendATcommand_waits _ _ _ _ _ _ _ _ _ Hrun) as (d1 & Hwait1 & Hnow1).
    rewrite wrap_waiting_sent, wrap_waiting_millis in Hwait1.
    assert (Hstart : 0 <= 0 < wrap_timeout - 1) by (unfold wrap_timeout; lia).
    pose proof (wait_loop_wraps fuel 0 d1 Hstart Hwait1) as Hlong.
    rewrite Hnow1, streaming_now in Hle.
    unfold pass_max, wrap_timeout in *. pose proof MESSAGE_BUFFER_SIZE_eq.
    change (2 ^ 32) with 4294967296 in Hlong. lia.
  - destruct (bind_Done_inv _ _ _ stale_read) as (d' & Hrun & Hlast).
    exists d'. split; [exact Hrun|]. split; [vm_compute; reflexivity | congruence].
Qed.
